(** * ComInterface: serial port and TCP socket transports over boost::asio

    Shallow embedding of [src/src/comserial.cpp] and [src/src/comsocket.cpp].
    The asynchronous machinery of boost::asio used by [Read], [Write] and
    [ComSocket::Open] (one deadline timer racing one I/O action on a single
    [io_service]) is modelled as a small event loop: pending actions, a
    FIFO of completed handlers, and cancellation that turns a pending action
    into a completion carrying [operation_aborted].  What the operating system
    does (bytes arriving, errors, ioctl results, close errors) is an input. *)

From Stdlib Require Import ZArith NArith List String Ascii Bool Lia.
Import ListNotations.

Module Asio.

(** boost::system::error_code, reduced to the codes the sources test. *)
Inductive error_code :=
| Success
| OperationAborted
| WouldBlock
| BadDescriptor
| OperationNotSupported
| InvalidArgument
| OtherError (n : nat).

(** [if (ec)] *)
Definition is_error (e : error_code) : bool :=
  match e with Success => false | _ => true end.

(** [ec == boost::asio::error::operation_aborted] *)
Definition is_aborted (e : error_code) : bool :=
  match e with OperationAborted => true | _ => false end.

(** The I/O objects owned by the transports. *)
Inductive io_object := ObjPort | ObjSocket | ObjAcceptor.

Definition io_object_eqb (a b : io_object) : bool :=
  match a, b with
  | ObjPort, ObjPort | ObjSocket, ObjSocket | ObjAcceptor, ObjAcceptor => true
  | _, _ => false
  end.

(** What a completion handler asks for: [m_timer.cancel(ec)] or
    [obj.cancel(ec)]. *)
Inductive cancel_req := CancelTimer | CancelObject (o : io_object).

(** A pending asynchronous action: [async_read]/[async_write] of [len]
    bytes ([op_len = Some len]) or [async_connect]/[async_accept]
    ([op_len = None]); [op_done] counts the bytes transferred so far. *)
Record io_op := mk_io_op { op_obj : io_object; op_len : option N; op_done : N }.

(** A handler ready to run, with the arguments it will receive. *)
Inductive completion :=
| TimerDone (e : error_code)
| IoDone (e : error_code) (n : N).

(** What the outside world does while [io_service::run] blocks. *)
Inductive event :=
| EvTimerExpire            (** the deadline elapses *)
| EvData (k : N)         (** [k] more bytes are transferred *)
| EvIoComplete             (** connect / accept succeeds *)
| EvIoError (e : error_code). (** the action fails with [e] *)

Section Loop.

Variable R : Type.

(** The completion handlers bound by one blocking call. *)
Record handlers := mk_handlers {
  io_handler : error_code -> N -> R -> R * list cancel_req;
  timer_handler : error_code -> list cancel_req
}.

Variable h : handlers.

Record loop_state := mk_loop {
  timer_pending : bool;
  io_pending : option io_op;
  ready : list completion;
  result : R;                               (** the caller's [ret_code] *)
  io_outcome : option (error_code * N)    (** what the I/O handler received *)
}.

Definition set_timer (b : bool) (s : loop_state) : loop_state :=
  mk_loop b (io_pending s) (ready s) (result s) (io_outcome s).
Definition set_io (o : option io_op) (s : loop_state) : loop_state :=
  mk_loop (timer_pending s) o (ready s) (result s) (io_outcome s).
Definition set_ready (q : list completion) (s : loop_state) : loop_state :=
  mk_loop (timer_pending s) (io_pending s) q (result s) (io_outcome s).
Definition post (c : completion) (s : loop_state) : loop_state :=
  set_ready (ready s ++ [c]) s.

(** [cancel]: a pending action completes with [operation_aborted]; an
    action that already completed is not affected. *)
Definition apply_cancel (s : loop_state) (c : cancel_req) : loop_state :=
  match c with
  | CancelTimer =>
      if timer_pending s then post (TimerDone OperationAborted) (set_timer false s)
      else s
  | CancelObject o =>
      match io_pending s with
      | Some op =>
          if io_object_eqb (op_obj op) o
          then post (IoDone OperationAborted (op_done op)) (set_io None s)
          else s
      | None => s
      end
  end.

(** Run one ready handler. *)
Definition execute (c : completion) (s : loop_state) : loop_state :=
  match c with
  | TimerDone e => fold_left apply_cancel (timer_handler h e) s
  | IoDone e n =>
      let '(r, cs) := io_handler h e n (result s) in
      fold_left apply_cancel cs
        (mk_loop (timer_pending s) (io_pending s) (ready s) r (Some (e, n)))
  end.

(** Run every ready handler (two actions: at most four handler runs). *)
Fixpoint drain (fuel : nat) (s : loop_state) : loop_state :=
  match fuel with
  | O => s
  | S f =>
      match ready s with
      | [] => s
      | c :: q => drain f (execute c (set_ready q s))
      end
  end.

(** The operating system delivers one event. *)
Definition deliver (ev : event) (s : loop_state) : loop_state :=
  match ev with
  | EvTimerExpire =>
      if timer_pending s then post (TimerDone Success) (set_timer false s) else s
  | EvData k =>
      match io_pending s with
      | Some (mk_io_op o (Some len) d) =>
          if (len <=? d + k)%N
          then post (IoDone Success len) (set_io None s)
          else set_io (Some (mk_io_op o (Some len) (d + k))) s
      | _ => s
      end
  | EvIoComplete =>
      match io_pending s with
      | Some (mk_io_op _ None d) => post (IoDone Success d) (set_io None s)
      | _ => s
      end
  | EvIoError e =>
      match io_pending s with
      | Some op => post (IoDone e (op_done op)) (set_io None s)
      | None => s
      end
  end.

Definition idle (s : loop_state) : bool :=
  negb (timer_pending s) &&
  match io_pending s with None => true | Some _ => false end &&
  match ready s with [] => true | _ => false end.

(** [io_service::run]: handle events until no work is left.  When the
    listed events are exhausted, time passes and the deadline elapses. *)
Fixpoint run (evs : list event) (s : loop_state) : loop_state :=
  let s := drain 4 s in
  if idle s then s
  else
    match evs with
    | [] => drain 4 (deliver EvTimerExpire s)
    | ev :: evs' => run evs' (deliver ev s)
    end.

(** [m_timer.async_wait(...)] followed by the start of the I/O action.
    An empty transfer completes at once. *)
Definition start (op : io_op) (r0 : R) : loop_state :=
  match op_len op with
  | Some N0 => mk_loop true None [IoDone Success 0%N] r0 None
  | _ => mk_loop true (Some op) [] r0 None
  end.

End Loop.

Arguments mk_handlers {R}.
Arguments run {R}.
Arguments start {R}.
Arguments result {R}.
Arguments io_outcome {R}.

(** [io_service::run(ec)] clears [ec] and never sets it for these
    services. *)
Definition run_ec : error_code := Success.

(** [static_cast] of a [size_t] count to [int] (two's complement). *)
Definition to_int (n : N) : Z :=
  let z := (Z.of_N n mod 2 ^ 32)%Z in
  if (2 ^ 31 <=? z)%Z then (z - 2 ^ 32)%Z else z.

(** A [time_duration] holds microsecond ticks; [milliseconds(t)] and
    [total_milliseconds()]; the getters return [unsigned int]. *)
Definition milliseconds (t : Z) : Z := (t * 1000)%Z.
Definition total_milliseconds (ticks : Z) : Z := (ticks / 1000)%Z.
Definition to_uint (z : Z) : Z := (z mod 2 ^ 32)%Z.

End Asio.

(** [throw std::invalid_argument(what)] in a constructor. *)
Inductive exception := invalid_argument (what : string).

(** The operating-system calls a member function issues. *)
Inductive os_call :=
| IoctlFIONREAD | IoctlTIOCOUTQ
| PortOpen | PortClose | PortReadSome (len : N) | PortWriteSome (len : N)
| SocketClose | AcceptorOpen | AcceptorBind (port : Z) | AcceptorListen
| AsyncAccept | AcceptorClose | AsyncConnect (port : Z) | SocketNonBlocking.

Module ComSerial.
Import Asio.

(** The data members of [class ComSerial]; the serial options hold the
    boost enum values ([stop_bits]: one=0, onepointfive=1, two=2;
    [parity]: none=0, odd=1, even=2; [flow_control]: none=0, software=1,
    hardware=2) and timeouts hold microsecond ticks. *)
Record ComSerial := mk {
  m_port_open : bool;
  m_write_timeout : Z;
  m_read_timeout : Z;
  m_device : string;
  m_baud_rate : Z;
  m_data_bits : Z;
  m_stop_bits : Z;
  m_parity : Z;
  m_flow_control : Z
}.

Definition stop_bits_one := 0%Z.
Definition stop_bits_onepointfive := 1%Z.
Definition stop_bits_two := 2%Z.
Definition parity_none := 0%Z.
Definition parity_odd := 1%Z.
Definition parity_even := 2%Z.
Definition flow_control_none := 0%Z.
Definition flow_control_software := 1%Z.
Definition flow_control_hardware := 2%Z.

(** Members as default-constructed before the constructor body runs. *)
Definition initial : ComSerial :=
  mk false 0 0 "" 0 8 stop_bits_one parity_none flow_control_none.

Definition with_port_open (b : bool) (s : ComSerial) : ComSerial :=
  mk b (m_write_timeout s) (m_read_timeout s) (m_device s) (m_baud_rate s)
     (m_data_bits s) (m_stop_bits s) (m_parity s) (m_flow_control s).
Definition with_write_timeout (t : Z) (s : ComSerial) : ComSerial :=
  mk (m_port_open s) t (m_read_timeout s) (m_device s) (m_baud_rate s)
     (m_data_bits s) (m_stop_bits s) (m_parity s) (m_flow_control s).
Definition with_read_timeout (t : Z) (s : ComSerial) : ComSerial :=
  mk (m_port_open s) (m_write_timeout s) t (m_device s) (m_baud_rate s)
     (m_data_bits s) (m_stop_bits s) (m_parity s) (m_flow_control s).
Definition with_device (d : string) (s : ComSerial) : ComSerial :=
  mk (m_port_open s) (m_write_timeout s) (m_read_timeout s) d (m_baud_rate s)
     (m_data_bits s) (m_stop_bits s) (m_parity s) (m_flow_control s).
Definition with_baud_rate (b : Z) (s : ComSerial) : ComSerial :=
  mk (m_port_open s) (m_write_timeout s) (m_read_timeout s) (m_device s) b
     (m_data_bits s) (m_stop_bits s) (m_parity s) (m_flow_control s).
Definition with_data_bits (b : Z) (s : ComSerial) : ComSerial :=
  mk (m_port_open s) (m_write_timeout s) (m_read_timeout s) (m_device s)
     (m_baud_rate s) b (m_stop_bits s) (m_parity s) (m_flow_control s).
Definition with_stop_bits (b : Z) (s : ComSerial) : ComSerial :=
  mk (m_port_open s) (m_write_timeout s) (m_read_timeout s) (m_device s)
     (m_baud_rate s) (m_data_bits s) b (m_parity s) (m_flow_control s).
Definition with_parity (p : Z) (s : ComSerial) : ComSerial :=
  mk (m_port_open s) (m_write_timeout s) (m_read_timeout s) (m_device s)
     (m_baud_rate s) (m_data_bits s) (m_stop_bits s) p (m_flow_control s).
Definition with_flow_control (f : Z) (s : ComSerial) : ComSerial :=
  mk (m_port_open s) (m_write_timeout s) (m_read_timeout s) (m_device s)
     (m_baud_rate s) (m_data_bits s) (m_stop_bits s) (m_parity s) f.

(** ** Setters and getters *)

Definition SetWriteTimeout (write_timeout : Z) (s : ComSerial) : bool * ComSerial :=
  if (write_timeout =? 0)%Z then (false, s)
  else (true, with_write_timeout (milliseconds write_timeout) s).

Definition GetWriteTimeout (s : ComSerial) : Z :=
  to_uint (total_milliseconds (m_write_timeout s)).

Definition SetReadTimeout (read_timeout : Z) (s : ComSerial) : bool * ComSerial :=
  if (read_timeout =? 0)%Z then (false, s)
  else (true, with_read_timeout (milliseconds read_timeout) s).

Definition GetReadTimeout (s : ComSerial) : Z :=
  to_uint (total_milliseconds (m_read_timeout s)).

Definition SetDevice (device : string) (s : ComSerial) : bool * ComSerial :=
  if String.eqb device "" then (false, s) else (true, with_device device s).

Definition GetDevice (s : ComSerial) : string := m_device s.

(** [serial_port_base::baud_rate(unsigned)] does not throw. *)
Definition SetBaudRate (baud_rate : Z) (s : ComSerial) : bool * ComSerial :=
  if (baud_rate =? 0)%Z then (false, s) else (true, with_baud_rate baud_rate s).

Definition GetBaudRate (s : ComSerial) : Z := m_baud_rate s.

(** [serial_port_base::character_size(unsigned)] does not throw. *)
Definition SetDataBits (data_bits : Z) (s : ComSerial) : bool * ComSerial :=
  (true, with_data_bits data_bits s).

Definition GetDataBits (s : ComSerial) : Z := m_data_bits s.

Definition SetStopBits (stop_bits : Z) (s : ComSerial) : bool * ComSerial :=
  if (stop_bits =? 1)%Z then (true, with_stop_bits stop_bits_one s)
  else if (stop_bits =? 2)%Z then (true, with_stop_bits stop_bits_two s)
  else if (stop_bits =? 3)%Z then (true, with_stop_bits stop_bits_onepointfive s)
  else (false, s).

Definition GetStopBits (s : ComSerial) : Z :=
  if (m_stop_bits s =? stop_bits_one)%Z then 1%Z
  else if (m_stop_bits s =? stop_bits_two)%Z then 2%Z
  else if (m_stop_bits s =? stop_bits_onepointfive)%Z then 3%Z
  else 0%Z.

Definition SetParity (parity : ascii) (s : ComSerial) : bool * ComSerial :=
  if Ascii.eqb parity "e" || Ascii.eqb parity "E" then (true, with_parity parity_even s)
  else if Ascii.eqb parity "o" || Ascii.eqb parity "O" then (true, with_parity parity_odd s)
  else if Ascii.eqb parity "n" || Ascii.eqb parity "N" then (true, with_parity parity_none s)
  else (false, s).

Definition GetParity (s : ComSerial) : ascii :=
  if (m_parity s =? parity_even)%Z then "e"%char
  else if (m_parity s =? parity_odd)%Z then "o"%char
  else if (m_parity s =? parity_none)%Z then "n"%char
  else Ascii.zero.

Definition SetFlowControl (flow_control : ascii) (s : ComSerial) : bool * ComSerial :=
  if Ascii.eqb flow_control "h" || Ascii.eqb flow_control "H"
  then (true, with_flow_control flow_control_hardware s)
  else if Ascii.eqb flow_control "s" || Ascii.eqb flow_control "S"
  then (true, with_flow_control flow_control_software s)
  else if Ascii.eqb flow_control "n" || Ascii.eqb flow_control "N"
  then (true, with_flow_control flow_control_none s)
  else (false, s).

Definition GetFlowControl (s : ComSerial) : ascii :=
  if (m_flow_control s =? flow_control_hardware)%Z then "h"%char
  else if (m_flow_control s =? flow_control_software)%Z then "s"%char
  else if (m_flow_control s =? flow_control_none)%Z then "n"%char
  else Ascii.zero.

(** The constructor: each setter in turn, throwing on the first refusal.
    No member function touching the port runs. *)
Definition construct (device : string) (baud_rate data_bits stop_bits : Z)
    (parity flow_control : ascii) (timeout : Z) : exception + ComSerial :=
  let s := initial in
  let '(ok, s) := SetDevice device s in
  if negb ok then inl (invalid_argument "invalid device name") else
  let '(ok, s) := SetBaudRate baud_rate s in
  if negb ok then inl (invalid_argument "invalid baud rate") else
  let '(ok, s) := SetDataBits data_bits s in
  if negb ok then inl (invalid_argument "invalid data bits value") else
  let '(ok, s) := SetStopBits stop_bits s in
  if negb ok then inl (invalid_argument "invalid stop bits value") else
  let '(ok, s) := SetParity parity s in
  if negb ok then inl (invalid_argument "invalid parity value") else
  let '(ok, s) := SetFlowControl flow_control s in
  if negb ok then inl (invalid_argument "invalid flow control value") else
  let '(ok, s) := SetWriteTimeout timeout s in
  if negb ok then inl (invalid_argument "invalid timeout value") else
  let '(ok, s) := SetReadTimeout timeout s in
  if negb ok then inl (invalid_argument "invalid timeout value") else
  inr s.

(** ** Opening and closing the port *)

(** [Open]: [open_ec] is the result of [m_port.open(m_device, ec)],
    [exclusive_ok] that of [ioctl(TIOCEXCL)] and [flock], [options_ok]
    whether every [set_option] succeeds. *)
Definition Open (open_ec : error_code) (exclusive_ok options_ok : bool)
    (s : ComSerial) : bool * ComSerial :=
  let s := if m_port_open s then with_port_open false s else s in
  if is_error open_ec then (false, s)
  else if negb exclusive_ok then (false, with_port_open false s)
  else if negb options_ok then (false, with_port_open false s)
  else (true, with_port_open true s).

(** [Close]: [close_ec] is what [m_port.close(ec)] reports; the
    descriptor is released whatever it reports. *)
Definition Close (close_ec : error_code) (s : ComSerial) : bool * ComSerial :=
  let '(ec, s) :=
    if m_port_open s then (close_ec, with_port_open false s) else (Success, s) in
  if is_error ec then (false, s) else (true, s).

Definition Opened (s : ComSerial) : bool := m_port_open s.

(** ** Blocking I/O with timeout *)

Definition read_write_handler (error : error_code) (bytes_transferred : N)
    (ret_code : option Z) : option Z * list cancel_req :=
  let ret_code :=
    if is_error error && negb (is_aborted error) then Some (-1)%Z
    else Some (to_int bytes_transferred) in
  (ret_code, [CancelTimer]).

Definition timeout_handler (error : error_code) : list cancel_req :=
  if is_aborted error then [] else [CancelObject ObjPort].

Definition rw_handlers : handlers (option Z) :=
  mk_handlers read_write_handler timeout_handler.

(** [int ret_code;] starts uninitialised ([None]); [evs] is what happens
    on the line and to the timer while [run] blocks. *)
Definition Read (len : N) (evs : list event) (s : ComSerial) : option Z :=
  let st := run rw_handlers evs (start (mk_io_op ObjPort (Some len) 0%N) None) in
  if is_error run_ec then Some (-1)%Z else result st.

Definition Write (len : N) (evs : list event) (s : ComSerial) : option Z :=
  let st := run rw_handlers evs (start (mk_io_op ObjPort (Some len) 0%N) None) in
  if is_error run_ec then Some (-1)%Z else result st.

(** ** Non-blocking I/O *)

(** [available_for_read] (POSIX branch): [fionread] is the pair
    (return code of [ioctl(FIONREAD)], value it stored). *)
Definition available_for_read (fionread : Z * Z) : Z :=
  if (fst fionread <? 0)%Z then (-1)%Z else snd fionread.

(** [pending_for_write] (POSIX branch), with [ioctl(TIOCOUTQ)]. *)
Definition pending_for_write (tiocoutq : Z * Z) : Z :=
  if (fst tiocoutq <? 0)%Z then (-1)%Z else snd tiocoutq.

(** [ReadSome]: [rd] is what [m_port.read_some] would report.  Returns
    the result and the operating-system calls made. *)
Definition ReadSome (fionread : Z * Z) (rd : error_code * N) (len : N)
    (s : ComSerial) : Z * list os_call :=
  let ret_code := available_for_read fionread in
  if (ret_code <=? 0)%Z then (ret_code, [IoctlFIONREAD])
  else
    let '(ec, n) := rd in
    ((if is_error ec then (-1)%Z else to_int n), [IoctlFIONREAD; PortReadSome len]).

Definition WriteSome (tiocoutq : Z * Z) (wr : error_code * N) (len : N)
    (s : ComSerial) : Z * list os_call :=
  let ret_code := pending_for_write tiocoutq in
  if negb (ret_code =? 0)%Z then
    ((if (ret_code >? 0)%Z then 0%Z else (-1)%Z), [IoctlTIOCOUTQ])
  else
    let '(ec, n) := wr in
    ((if is_error ec then (-1)%Z else to_int n), [IoctlTIOCOUTQ; PortWriteSome len]).

(** ** Every public member function, as a transition of the object *)

Inductive call :=
| CallOpen (open_ec : error_code) (exclusive_ok options_ok : bool)
| CallClose (close_ec : error_code)
| CallOpened
| CallReadSome (fionread : Z * Z) (rd : error_code * N) (len : N)
| CallWriteSome (tiocoutq : Z * Z) (wr : error_code * N) (len : N)
| CallRead (len : N) (evs : list event)
| CallWrite (len : N) (evs : list event)
| CallAbort
| CallFlush
| CallSetWriteTimeout (t : Z) | CallGetWriteTimeout
| CallSetReadTimeout (t : Z) | CallGetReadTimeout
| CallSetDevice (d : string) | CallGetDevice
| CallSetBaudRate (b : Z) | CallGetBaudRate
| CallSetDataBits (b : Z) | CallGetDataBits
| CallSetStopBits (b : Z) | CallGetStopBits
| CallSetParity (p : ascii) | CallGetParity
| CallSetFlowControl (f : ascii) | CallGetFlowControl.

(** The object after the call; [Abort] and [Flush] act on the line and
    the timer only, the getters and the I/O calls leave the members. *)
Definition exec (s : ComSerial) (c : call) : ComSerial :=
  match c with
  | CallOpen e x o => snd (Open e x o s)
  | CallClose e => snd (Close e s)
  | CallSetWriteTimeout t => snd (SetWriteTimeout t s)
  | CallSetReadTimeout t => snd (SetReadTimeout t s)
  | CallSetDevice d => snd (SetDevice d s)
  | CallSetBaudRate b => snd (SetBaudRate b s)
  | CallSetDataBits b => snd (SetDataBits b s)
  | CallSetStopBits b => snd (SetStopBits b s)
  | CallSetParity p => snd (SetParity p s)
  | CallSetFlowControl f => snd (SetFlowControl f s)
  | _ => s
  end.

(** The states an object reaches: constructed, then any calls. *)
Inductive reachable : ComSerial -> Prop :=
| reach_construct d b db sb p f t s :
    construct d b db sb p f t = inr s -> reachable s
| reach_call s c : reachable s -> reachable (exec s c).

End ComSerial.

(** * IP addresses: [boost::asio::ip::address] and its parser

    [address::from_string] tries [address_v6::from_string] and then
    [address_v4::from_string]; both call the C library's [inet_pton],
    whose IPv4 and IPv6 scanners are translated below.  An IPv6 scope
    suffix ([%name]) is kept as text: resolving it to an interface index
    is an operating-system lookup. *)
Module Ip.

Local Open Scope list_scope.

Inductive address :=
| V4 (bytes : list Z)
| V6 (bytes : list Z) (scope : option (list ascii)).

(** [address()]: the IPv4 address 0.0.0.0. *)
Definition default_address : address := V4 [0; 0; 0; 0]%Z.

(** [is_unspecified]: every byte zero (the scope is not looked at). *)
Definition is_unspecified (a : address) : bool :=
  match a with
  | V4 b => forallb (fun x => (x =? 0)%Z) b
  | V6 b _ => forallb (fun x => (x =? 0)%Z) b
  end.

Definition digit_value (c : ascii) : option Z :=
  let n := nat_of_ascii c in
  if (48 <=? n)%nat && (n <=? 57)%nat then Some (Z.of_nat (n - 48)) else None.

Definition hex_digit_value (c : ascii) : option Z :=
  let n := nat_of_ascii c in
  if (48 <=? n)%nat && (n <=? 57)%nat then Some (Z.of_nat (n - 48))
  else if (97 <=? n)%nat && (n <=? 102)%nat then Some (Z.of_nat (n - 87))
  else if (65 <=? n)%nat && (n <=? 70)%nat then Some (Z.of_nat (n - 55))
  else None.

(** [inet_pton4]: [done] holds the finished octets, [cur] the one being
    read ([*tp]). *)
Fixpoint pton4_loop (src : list ascii) (saw_digit : bool) (octets : nat)
    (done : list Z) (cur : Z) : option (list Z) :=
  match src with
  | [] => if (octets <? 4)%nat then None else Some (done ++ [cur])
  | ch :: src' =>
      match digit_value ch with
      | Some d =>
          let nw := (cur * 10 + d)%Z in
          if saw_digit && (cur =? 0)%Z then None
          else if (nw >? 255)%Z then None
          else if saw_digit then pton4_loop src' true octets done nw
          else if (4 <? S octets)%nat then None
          else pton4_loop src' true (S octets) done nw
      | None =>
          if Ascii.eqb ch "." && saw_digit then
            if (octets =? 4)%nat then None
            else pton4_loop src' false octets (done ++ [cur]) 0
          else None
      end
  end.

Definition inet_pton4 (src : list ascii) : option (list Z) :=
  pton4_loop src false 0 [] 0.

(** The main loop of [inet_pton6]: [tp] the bytes written so far,
    [colonp] where [::] was seen, [curtok] the text from the current
    token on, [xdigits] and [val] the group being read.  A dotted quad
    ends the loop (the C code's [break]). *)
Fixpoint pton6_loop (src curtok : list ascii) (tp : list Z) (colonp : option nat)
    (xdigits : nat) (val : Z) : option (list Z * option nat * nat * Z) :=
  match src with
  | [] => Some (tp, colonp, xdigits, val)
  | ch :: src' =>
      match hex_digit_value ch with
      | Some d =>
          if (xdigits =? 4)%nat then None
          else
            let val' := Z.lor (Z.shiftl val 4) d in
            if (val' >? 65535)%Z then None
            else pton6_loop src' curtok tp colonp (S xdigits) val'
      | None =>
          if Ascii.eqb ch ":" then
            if (xdigits =? 0)%nat then
              match colonp with
              | Some _ => None
              | None => pton6_loop src' src' tp (Some (List.length tp)) 0 val
              end
            else
              match src' with
              | [] => None
              | _ =>
                  if (16 <? List.length tp + 2)%nat then None
                  else pton6_loop src' src'
                         (tp ++ [Z.land (Z.shiftr val 8) 255; Z.land val 255])
                         colonp 0 0
              end
          else if Ascii.eqb ch "." && (List.length tp + 4 <=? 16)%nat then
            match inet_pton4 curtok with
            | Some b => Some (tp ++ b, colonp, 0%nat, val)
            | None => None
            end
          else None
      end
  end.

Definition inet_pton6 (src : list ascii) : option (list Z) :=
  let src :=
    match src with
    | [] => None
    | c :: rest =>
        if Ascii.eqb c ":" then
          match rest with
          | c' :: _ => if Ascii.eqb c' ":" then Some rest else None
          | [] => None
          end
        else Some src
    end in
  match src with
  | None => None
  | Some src =>
      match pton6_loop src src [] None 0 0 with
      | None => None
      | Some (tp, colonp, xdigits, val) =>
          let tp :=
            if (0 <? xdigits)%nat then
              if (16 <? List.length tp + 2)%nat then None
              else Some (tp ++ [Z.land (Z.shiftr val 8) 255; Z.land val 255])
            else Some tp in
          match tp with
          | None => None
          | Some tp =>
              let tp :=
                match colonp with
                | Some c =>
                    if (List.length tp =? 16)%nat then None
                    else Some (firstn c tp ++ repeat 0%Z (16 - List.length tp) ++ skipn c tp)
                | None => Some tp
                end in
              match tp with
              | Some tp => if (List.length tp =? 16)%nat then Some tp else None
              | None => None
              end
          end
      end
  end.

(** Split at the first ['%'] ([strchr(src, '%')]). *)
Fixpoint split_scope (s : list ascii) : list ascii * option (list ascii) :=
  match s with
  | [] => ([], None)
  | c :: rest =>
      if Ascii.eqb c "%" then ([], Some rest)
      else let '(pre, suf) := split_scope rest in (c :: pre, suf)
  end.

(** boost's [socket_ops::inet_pton] for [AF_INET6]. *)
Definition v6_from_string (s : list ascii) : option address :=
  let '(pre, suf) := split_scope s in
  match suf with
  | Some _ => if (256 <? List.length pre)%nat then None
              else option_map (fun b => V6 b suf) (inet_pton6 pre)
  | None => option_map (fun b => V6 b None) (inet_pton6 pre)
  end.

Definition v4_from_string (s : list ascii) : option address :=
  option_map V4 (inet_pton4 s).

(** [str.c_str()]: the text up to the first NUL. *)
Fixpoint c_str (s : list ascii) : list ascii :=
  match s with
  | [] => []
  | c :: rest => if Ascii.eqb c Ascii.zero then [] else c :: c_str rest
  end.

(** [address::from_string(str, ec)]: [None] when [ec] is set (the
    returned value is then [address()]). *)
Definition from_string (str : string) : option address :=
  let s := c_str (list_ascii_of_string str) in
  match v6_from_string s with
  | Some a => Some a
  | None => v4_from_string s
  end.

End Ip.

Module ComSocket.
Import Asio.

(** The data members of [class ComSocket] (timeouts in microsecond
    ticks).  The acceptor is open only inside [Open]. *)
Record ComSocket := mk {
  m_socket_open : bool;
  m_write_timeout : Z;
  m_read_timeout : Z;
  m_open_timeout : Z;
  m_address : Ip.address;
  m_port : Z
}.

Definition initial : ComSocket := mk false 0 0 0 Ip.default_address 0.

Definition with_socket_open (b : bool) (s : ComSocket) : ComSocket :=
  mk b (m_write_timeout s) (m_read_timeout s) (m_open_timeout s) (m_address s) (m_port s).
Definition with_write_timeout (t : Z) (s : ComSocket) : ComSocket :=
  mk (m_socket_open s) t (m_read_timeout s) (m_open_timeout s) (m_address s) (m_port s).
Definition with_read_timeout (t : Z) (s : ComSocket) : ComSocket :=
  mk (m_socket_open s) (m_write_timeout s) t (m_open_timeout s) (m_address s) (m_port s).
Definition with_open_timeout (t : Z) (s : ComSocket) : ComSocket :=
  mk (m_socket_open s) (m_write_timeout s) (m_read_timeout s) t (m_address s) (m_port s).
Definition with_address (a : Ip.address) (s : ComSocket) : ComSocket :=
  mk (m_socket_open s) (m_write_timeout s) (m_read_timeout s) (m_open_timeout s) a (m_port s).
Definition with_port (p : Z) (s : ComSocket) : ComSocket :=
  mk (m_socket_open s) (m_write_timeout s) (m_read_timeout s) (m_open_timeout s) (m_address s) p.

(** ** Setters and getters *)

Definition SetWriteTimeout (write_timeout : Z) (s : ComSocket) : bool * ComSocket :=
  if (write_timeout =? 0)%Z then (false, s)
  else (true, with_write_timeout (milliseconds write_timeout) s).

Definition GetWriteTimeout (s : ComSocket) : Z :=
  to_uint (total_milliseconds (m_write_timeout s)).

Definition SetReadTimeout (read_timeout : Z) (s : ComSocket) : bool * ComSocket :=
  if (read_timeout =? 0)%Z then (false, s)
  else (true, with_read_timeout (milliseconds read_timeout) s).

Definition GetReadTimeout (s : ComSocket) : Z :=
  to_uint (total_milliseconds (m_read_timeout s)).

Definition SetOpenTimeout (open_timeout : Z) (s : ComSocket) : bool * ComSocket :=
  if (open_timeout =? 0)%Z then (false, s)
  else (true, with_open_timeout (milliseconds open_timeout) s).

Definition GetOpenTimeout (s : ComSocket) : Z :=
  to_uint (total_milliseconds (m_open_timeout s)).

(** On a parse error [m_address] receives [address()] and [false] is
    returned. *)
Definition SetAddress (address : string) (s : ComSocket) : bool * ComSocket :=
  if String.eqb address "" then (true, with_address Ip.default_address s)
  else
    match Ip.from_string address with
    | Some a => (true, with_address a s)
    | None => (false, with_address Ip.default_address s)
    end.

Section GetAddress.

(** [address::to_string()] ([inet_ntop] plus the scope). *)
Variable address_to_string : Ip.address -> string.

Definition GetAddress (s : ComSocket) : string :=
  if Ip.is_unspecified (m_address s) then ""%string
  else address_to_string (m_address s).

End GetAddress.

Definition SetPort (port : Z) (s : ComSocket) : bool * ComSocket :=
  if (port >? 65535)%Z then (false, s) else (true, with_port port s).

Definition GetPort (s : ComSocket) : Z := m_port s.

Definition construct (address : string) (port timeout : Z) : exception + ComSocket :=
  let s := initial in
  let '(ok, s) := SetAddress address s in
  if negb ok then inl (invalid_argument "invalid IP address") else
  let '(ok, s) := SetPort port s in
  if negb ok then inl (invalid_argument "invalid TCP port") else
  let '(ok, s) := SetOpenTimeout timeout s in
  if negb ok then inl (invalid_argument "invalid timeout value") else
  let '(ok, s) := SetWriteTimeout timeout s in
  if negb ok then inl (invalid_argument "invalid timeout value") else
  let '(ok, s) := SetReadTimeout timeout s in
  if negb ok then inl (invalid_argument "invalid timeout value") else
  inr s.

(** ** Completion handlers *)

Definition open_handler (error : error_code) (_ : N) (ret_code : bool)
    : bool * list cancel_req :=
  let ret_code :=
    if is_error error && negb (is_aborted error) then false else true in
  (ret_code, [CancelTimer]).

Definition read_write_handler (error : error_code) (bytes_transferred : N)
    (ret_code : option Z) : option Z * list cancel_req :=
  let ret_code :=
    if is_error error && negb (is_aborted error) then Some (-1)%Z
    else Some (to_int bytes_transferred) in
  (ret_code, [CancelTimer]).

Definition timeout_handler (error : error_code) : list cancel_req :=
  if is_aborted error then [] else [CancelObject ObjSocket].

Definition timeout_accept_handler (error : error_code) : list cancel_req :=
  if is_aborted error then [] else [CancelObject ObjAcceptor].

(** ** Open *)

(** What the operating system answers during [Open] besides the events of
    the connect/accept race. *)
Record open_env := mk_open_env {
  acceptor_setup_ec : error_code;  (** [open]/[set_option]/[bind]/[listen] *)
  acceptor_close_ec : error_code;  (** [m_acceptor.close(ec_acceptor_close)] *)
  socket_open_ec : error_code;     (** the implicit [open] of [async_connect] *)
  non_blocking_ec : error_code     (** [non_blocking(true, ec)] on an open socket *)
}.

(** The tail of [Open] after [run]: [ec] as left by the branch,
    [sock_open] whether [m_socket] holds a descriptor. *)
Definition open_finish (ec : error_code) (ret_code sock_open : bool)
    (env : open_env) (s : ComSocket) (log : list os_call)
    : bool * ComSocket * list os_call :=
  if is_error ec then (false, with_socket_open sock_open s, log)
  else
    let nb := if sock_open then non_blocking_ec env else BadDescriptor in
    if is_error nb
    then (false, with_socket_open false s, log ++ [SocketNonBlocking; SocketClose])
    else (ret_code, with_socket_open sock_open s, log ++ [SocketNonBlocking]).

Definition Open (env : open_env) (evs : list event) (s : ComSocket)
    : bool * ComSocket * list os_call :=
  let '(s, log) :=
    if m_socket_open s then (with_socket_open false s, [SocketClose]) else (s, []) in
  if Ip.is_unspecified (m_address s) then
    (* server: accept one connection *)
    if is_error (acceptor_setup_ec env)
    then (false, s, log ++ [AcceptorOpen; AcceptorClose])
    else
      let st := run (mk_handlers open_handler timeout_accept_handler) evs
                    (start (mk_io_op ObjAcceptor None 0%N) false) in
      let ec := if is_error (acceptor_close_ec env) then acceptor_close_ec env
                else run_ec in
      let accepted :=
        match io_outcome st with Some (Success, _) => true | _ => false end in
      open_finish ec (result st) accepted env s
        (log ++ [AcceptorOpen; AcceptorBind (m_port s); AcceptorListen;
                 AsyncAccept; AcceptorClose])
  else
    (* client: connect to m_address:m_port *)
    let hs := mk_handlers open_handler timeout_handler in
    let '(sock_open, st0) :=
      if is_error (socket_open_ec env)
      then (false, mk_loop bool true None [IoDone (socket_open_ec env) 0%N] false None)
      else (true, start (mk_io_op ObjSocket None 0) false) in
    let st := run hs evs st0 in
    open_finish run_ec (result st) sock_open env s (log ++ [AsyncConnect (m_port s)]).

(** ** Close, Opened, blocking I/O *)

Definition Close (close_ec : error_code) (s : ComSocket) : bool * ComSocket :=
  let '(ec, s) :=
    if m_socket_open s then (close_ec, with_socket_open false s) else (Success, s) in
  if is_error ec then (false, s) else (true, s).

Definition Opened (s : ComSocket) : bool := m_socket_open s.

Definition rw_handlers : handlers (option Z) :=
  mk_handlers read_write_handler timeout_handler.

Definition Read (len : N) (evs : list event) (s : ComSocket) : option Z :=
  let st := run rw_handlers evs (start (mk_io_op ObjSocket (Some len) 0%N) None) in
  if is_error run_ec then Some (-1)%Z else result st.

Definition Write (len : N) (evs : list event) (s : ComSocket) : option Z :=
  let st := run rw_handlers evs (start (mk_io_op ObjSocket (Some len) 0%N) None) in
  if is_error run_ec then Some (-1)%Z else result st.

(** ** Non-blocking I/O *)

(** [rd] is what [m_socket.read_some(buffer, ec)] reports on the socket
    put in non-blocking mode by [Open]. *)
Definition ReadSome (rd : error_code * N) (len : N) (s : ComSocket) : Z :=
  let '(ec, n) := rd in
  let ret_code := if is_error ec then 0%Z else to_int n in
  if is_error ec then
    match ec with WouldBlock => 0%Z | _ => (-1)%Z end
  else ret_code.

Definition WriteSome (wr : error_code * N) (len : N) (s : ComSocket) : Z :=
  let '(ec, n) := wr in
  let ret_code := if is_error ec then 0%Z else to_int n in
  if is_error ec then
    match ec with WouldBlock => 0%Z | _ => (-1)%Z end
  else ret_code.

End ComSocket.

(** * Properties *)

Import Asio.

(** ** Timeouts *)

Lemma ms_roundtrip (t : Z) :
  (0 <= t < 2 ^ 32)%Z -> to_uint (total_milliseconds (milliseconds t)) = t.
Proof.
  intros H. unfold to_uint, total_milliseconds, milliseconds.
  rewrite Z.div_mul by lia. apply Z.mod_small. lia.
Qed.

(** C5: every timeout setter of both transports refuses [0] and then
    leaves the object as it was (so the getter still shows the previous
    value); any other [unsigned int] [t] is accepted and read back as [t]. *)
Theorem timeout_setters_zero_rejected_positive_stored (t : Z) :
  (0 <= t < 2 ^ 32)%Z ->
  (forall s : ComSerial.ComSerial,
     (t = 0%Z ->
        ComSerial.SetReadTimeout t s = (false, s) /\
        ComSerial.SetWriteTimeout t s = (false, s)) /\
     ((0 < t)%Z ->
        fst (ComSerial.SetReadTimeout t s) = true /\
        ComSerial.GetReadTimeout (snd (ComSerial.SetReadTimeout t s)) = t /\
        fst (ComSerial.SetWriteTimeout t s) = true /\
        ComSerial.GetWriteTimeout (snd (ComSerial.SetWriteTimeout t s)) = t)) /\
  (forall s : ComSocket.ComSocket,
     (t = 0%Z ->
        ComSocket.SetReadTimeout t s = (false, s) /\
        ComSocket.SetWriteTimeout t s = (false, s) /\
        ComSocket.SetOpenTimeout t s = (false, s)) /\
     ((0 < t)%Z ->
        fst (ComSocket.SetReadTimeout t s) = true /\
        ComSocket.GetReadTimeout (snd (ComSocket.SetReadTimeout t s)) = t /\
        fst (ComSocket.SetWriteTimeout t s) = true /\
        ComSocket.GetWriteTimeout (snd (ComSocket.SetWriteTimeout t s)) = t /\
        fst (ComSocket.SetOpenTimeout t s) = true /\
        ComSocket.GetOpenTimeout (snd (ComSocket.SetOpenTimeout t s)) = t)).
Proof.
  intros Ht. split; intros s; split; intros H.
  - subst t. repeat split.
  - assert (Hne : (t =? 0)%Z = false) by (apply Z.eqb_neq; lia).
    unfold ComSerial.SetReadTimeout, ComSerial.SetWriteTimeout,
      ComSerial.GetReadTimeout, ComSerial.GetWriteTimeout.
    rewrite Hne. simpl. rewrite !ms_roundtrip by exact Ht. repeat split.
  - subst t. repeat split.
  - assert (Hne : (t =? 0)%Z = false) by (apply Z.eqb_neq; lia).
    unfold ComSocket.SetReadTimeout, ComSocket.SetWriteTimeout,
      ComSocket.SetOpenTimeout, ComSocket.GetReadTimeout,
      ComSocket.GetWriteTimeout, ComSocket.GetOpenTimeout.
    rewrite Hne. simpl. rewrite !ms_roundtrip by exact Ht. repeat split.
Qed.

Lemma timeout_setters_zero_rejected_positive_stored_witness :
  (0 <= 250 < 2 ^ 32)%Z /\
  ComSocket.GetOpenTimeout (snd (ComSocket.SetOpenTimeout 250 ComSocket.initial)) = 250%Z /\
  ComSerial.SetReadTimeout 0 ComSerial.initial = (false, ComSerial.initial).
Proof.
  assert (H : (0 <= 250 < 2 ^ 32)%Z) by lia.
  destruct (timeout_setters_zero_rejected_positive_stored 250 H) as [_ Hsock].
  destruct (Hsock ComSocket.initial) as [_ Hpos].
  assert (H0 : (0 <= 0 < 2 ^ 32)%Z) by lia.
  destruct (timeout_setters_zero_rejected_positive_stored 0 H0) as [Hser _].
  destruct (Hser ComSerial.initial) as [Hz _].
  split; [exact H|]. split.
  - destruct (Hpos ltac:(lia)) as (_ & _ & _ & _ & _ & R). exact R.
  - destruct (Hz eq_refl) as [R _]. exact R.
Defined.

(** ** Non-blocking serial I/O *)

(** C4: [WriteSome] asks [pending_for_write] first: a positive count gives
    [0] and an error ([-1]) gives [-1], both without the write call; the
    write is issued exactly when the count is [0]. *)
Theorem WriteSome_backpressure (tiocoutq : Z * Z) (wr : error_code * N) (len : N)
    (s : ComSerial.ComSerial) :
  let p := ComSerial.pending_for_write tiocoutq in
  let '(ret, calls) := ComSerial.WriteSome tiocoutq wr len s in
  ((0 < p)%Z -> ret = 0%Z /\ ~ In (PortWriteSome len) calls) /\
  (p = (-1)%Z -> ret = (-1)%Z /\ ~ In (PortWriteSome len) calls) /\
  (In (PortWriteSome len) calls <-> p = 0%Z).
Proof.
  simpl. unfold ComSerial.WriteSome.
  set (p := ComSerial.pending_for_write tiocoutq).
  destruct (Z.eqb_spec p 0) as [E | E]; simpl.
  - destruct wr as [ec n]. repeat split; intros; try lia.
    + simpl. auto.
  - destruct (Z.gtb_spec p 0); repeat split; intros; try lia;
      simpl in *; intuition discriminate.
Qed.

(** C6: [ReadSome] returns what [available_for_read] reports when it is
    not positive, without the read call; it reads exactly when the count
    is positive. *)
Theorem ReadSome_availability_first (fionread : Z * Z) (rd : error_code * N) (len : N)
    (s : ComSerial.ComSerial) :
  let v := ComSerial.available_for_read fionread in
  let '(ret, calls) := ComSerial.ReadSome fionread rd len s in
  ((v <= 0)%Z -> ret = v /\ ~ In (PortReadSome len) calls) /\
  (In (PortReadSome len) calls <-> (0 < v)%Z).
Proof.
  simpl. unfold ComSerial.ReadSome.
  set (v := ComSerial.available_for_read fionread).
  destruct (Z.leb_spec v 0) as [E | E]; simpl.
  - repeat split; intros; try lia; intuition discriminate.
  - destruct rd as [ec n]. repeat split; intros; try lia. simpl. auto.
Qed.

(** ** Parity *)

Definition parity_accepted (c : ascii) : bool :=
  existsb (Ascii.eqb c) ["e"; "E"; "o"; "O"; "n"; "N"]%char.

(** C7 (claim as stated refuted): the capital letters are accepted too. *)
Lemma SetParity_accepts_capital_E :
  fst (ComSerial.SetParity "E" ComSerial.initial) = true.
Proof. reflexivity. Qed.

(** C7 (amended): [SetParity] accepts exactly 'e', 'E', 'o', 'O', 'n', 'N',
    in any state; a refused parity makes the constructor throw
    [invalid_argument] (the constructor opens nothing: the port is only
    opened by [Open]). *)
Theorem SetParity_accepts_exactly_eon (p : ascii) :
  (forall s, fst (ComSerial.SetParity p s) = parity_accepted p) /\
  (parity_accepted p = false ->
   forall device baud data stop flow timeout,
     exists msg, ComSerial.construct device baud data stop p flow timeout
                 = inl (invalid_argument msg)).
Proof.
  split.
  - intros s. unfold ComSerial.SetParity, parity_accepted. simpl.
    destruct (Ascii.eqb_spec p "e"); destruct (Ascii.eqb_spec p "E");
    destruct (Ascii.eqb_spec p "o"); destruct (Ascii.eqb_spec p "O");
    destruct (Ascii.eqb_spec p "n"); destruct (Ascii.eqb_spec p "N");
    reflexivity.
  - intros Hp device baud data stop flow timeout.
    assert (Hs : forall s, ComSerial.SetParity p s = (false, s)).
    { intros s. unfold ComSerial.SetParity. unfold parity_accepted in Hp. simpl in Hp.
      destruct (Ascii.eqb p "e"), (Ascii.eqb p "E"), (Ascii.eqb p "o"),
        (Ascii.eqb p "O"), (Ascii.eqb p "n"), (Ascii.eqb p "N");
        simpl in *; try discriminate; reflexivity. }
    unfold ComSerial.construct.
    destruct (ComSerial.SetDevice device ComSerial.initial) as [ok1 s1].
    destruct ok1; cbn [negb]; [| eexists; reflexivity].
    destruct (ComSerial.SetBaudRate baud s1) as [ok2 s2].
    destruct ok2; cbn [negb]; [| eexists; reflexivity].
    destruct (ComSerial.SetDataBits data s2) as [ok3 s3].
    destruct ok3; cbn [negb]; [| eexists; reflexivity].
    destruct (ComSerial.SetStopBits stop s3) as [ok4 s4].
    destruct ok4; cbn [negb]; [| eexists; reflexivity].
    rewrite Hs. cbn [negb]. eexists; reflexivity.
Qed.

(** ** Close *)

(** C8: on both transports [Close] of a closed object succeeds and changes
    nothing, so a second [Close] always returns [true]. *)
Theorem Close_closed_succeeds :
  (forall (ec : error_code) (s : ComSerial.ComSerial),
     (ComSerial.Opened s = false -> ComSerial.Close ec s = (true, s)) /\
     forall ec2, fst (ComSerial.Close ec2 (snd (ComSerial.Close ec s))) = true) /\
  (forall (ec : error_code) (s : ComSocket.ComSocket),
     (ComSocket.Opened s = false -> ComSocket.Close ec s = (true, s)) /\
     forall ec2, fst (ComSocket.Close ec2 (snd (ComSocket.Close ec s))) = true).
Proof.
  split; intros ec s; split.
  - unfold ComSerial.Opened, ComSerial.Close. intros H. rewrite H. reflexivity.
  - intros ec2. unfold ComSerial.Close.
    destruct s as [o ? ? ? ? ? ? ? ?]; destruct o; simpl; [destruct (is_error ec)|]; reflexivity.
  - unfold ComSocket.Opened, ComSocket.Close. intros H. rewrite H. reflexivity.
  - intros ec2. unfold ComSocket.Close.
    destruct s as [o ? ? ? ? ?]; destruct o; simpl; [destruct (is_error ec)|]; reflexivity.
Qed.

(** ** Serial line codes *)

(** The stored boost enum values are among the enumerators. *)
Definition codes_valid (s : ComSerial.ComSerial) : Prop :=
  In (ComSerial.m_stop_bits s) [0; 1; 2]%Z /\
  In (ComSerial.m_parity s) [0; 1; 2]%Z /\
  In (ComSerial.m_flow_control s) [0; 1; 2]%Z.

Lemma codes_valid_initial : codes_valid ComSerial.initial.
Proof. unfold codes_valid; simpl; tauto. Qed.

Lemma codes_valid_exec (s : ComSerial.ComSerial) (c : ComSerial.call) :
  codes_valid s -> codes_valid (ComSerial.exec s c).
Proof.
  unfold codes_valid. intros (Hs & Hp & Hf).
  destruct c; simpl; try tauto.
  - unfold ComSerial.Open.
    destruct (ComSerial.m_port_open s), (is_error open_ec), exclusive_ok, options_ok;
      simpl; tauto.
  - unfold ComSerial.Close.
    destruct (ComSerial.m_port_open s); [destruct (is_error close_ec)|]; simpl; tauto.
  - unfold ComSerial.SetWriteTimeout. destruct (t =? 0)%Z; simpl; tauto.
  - unfold ComSerial.SetReadTimeout. destruct (t =? 0)%Z; simpl; tauto.
  - unfold ComSerial.SetDevice. destruct (String.eqb d ""); simpl; tauto.
  - unfold ComSerial.SetBaudRate. destruct (b =? 0)%Z; simpl; tauto.
  - unfold ComSerial.SetStopBits.
    destruct (b =? 1)%Z; [|destruct (b =? 2)%Z; [|destruct (b =? 3)%Z]];
      simpl; tauto.
  - unfold ComSerial.SetParity.
    destruct (Ascii.eqb p "e" || Ascii.eqb p "E");
      [|destruct (Ascii.eqb p "o" || Ascii.eqb p "O");
        [|destruct (Ascii.eqb p "n" || Ascii.eqb p "N")]]; simpl; tauto.
  - unfold ComSerial.SetFlowControl.
    destruct (Ascii.eqb f "h" || Ascii.eqb f "H");
      [|destruct (Ascii.eqb f "s" || Ascii.eqb f "S");
        [|destruct (Ascii.eqb f "n" || Ascii.eqb f "N")]]; simpl; tauto.
Qed.

(** One setter of the constructor, seen as a transition. *)
Ltac setter_step setter c H Hn s' :=
  let ok := fresh "ok" in let E := fresh "E" in
  destruct setter as [ok s'] eqn:E;
  assert (Hn : codes_valid s')
    by (pose proof (codes_valid_exec _ c H) as X; cbn [ComSerial.exec] in X;
        rewrite E in X; exact X);
  destruct ok; cbn [negb]; [|discriminate].

(** The constructor runs setters on [initial]; each is a transition. *)
Lemma codes_valid_construct d b db sb p f t s :
  ComSerial.construct d b db sb p f t = inr s -> codes_valid s.
Proof.
  unfold ComSerial.construct.
  pose proof codes_valid_initial as H0.
  setter_step (ComSerial.SetDevice d ComSerial.initial) (ComSerial.CallSetDevice d) H0 H1 s1.
  setter_step (ComSerial.SetBaudRate b s1) (ComSerial.CallSetBaudRate b) H1 H2 s2.
  setter_step (ComSerial.SetDataBits db s2) (ComSerial.CallSetDataBits db) H2 H3 s3.
  setter_step (ComSerial.SetStopBits sb s3) (ComSerial.CallSetStopBits sb) H3 H4 s4.
  setter_step (ComSerial.SetParity p s4) (ComSerial.CallSetParity p) H4 H5 s5.
  setter_step (ComSerial.SetFlowControl f s5) (ComSerial.CallSetFlowControl f) H5 H6 s6.
  setter_step (ComSerial.SetWriteTimeout t s6) (ComSerial.CallSetWriteTimeout t) H6 H7 s7.
  setter_step (ComSerial.SetReadTimeout t s7) (ComSerial.CallSetReadTimeout t) H7 H8 s8.
  intros Hc. injection Hc as <-. exact H8.
Qed.

Lemma codes_valid_reachable s : ComSerial.reachable s -> codes_valid s.
Proof.
  induction 1.
  - eapply codes_valid_construct; eassumption.
  - apply codes_valid_exec; assumption.
Qed.

(** C10: in every state reachable from a successful construction, the
    getters report 1, 2 or 3 stop bits, parity 'e', 'o' or 'n' and flow
    control 'h', 's' or 'n', never the 0 / NUL fallback. *)
Theorem serial_line_codes_always_valid (s : ComSerial.ComSerial) :
  ComSerial.reachable s ->
  In (ComSerial.GetStopBits s) [1; 2; 3]%Z /\
  In (ComSerial.GetParity s) ["e"; "o"; "n"]%char /\
  In (ComSerial.GetFlowControl s) ["h"; "s"; "n"]%char.
Proof.
  intros Hr. destruct (codes_valid_reachable s Hr) as (Hs & Hp & Hf).
  unfold ComSerial.GetStopBits, ComSerial.GetParity, ComSerial.GetFlowControl.
  simpl in Hs, Hp, Hf.
  destruct Hs as [<- | [<- | [<- | []]]];
  destruct Hp as [<- | [<- | [<- | []]]];
  destruct Hf as [<- | [<- | [<- | []]]]; simpl; tauto.
Qed.

Lemma serial_line_codes_always_valid_witness :
  let s := ComSerial.exec
             (ComSerial.mk false 1000000 1000000 "COM1" 38400 8 0 2 2)
             (ComSerial.CallSetStopBits 3) in
  ComSerial.reachable s /\ In (ComSerial.GetStopBits s) [1; 2; 3]%Z.
Proof.
  intros s.
  assert (Hr : ComSerial.reachable s).
  { apply ComSerial.reach_call.
    apply (ComSerial.reach_construct "COM1" 38400 8 1 "e" "h" 1000).
    vm_compute. reflexivity. }
  split; [exact Hr|].
  destruct (serial_line_codes_always_valid s Hr) as [H _]. exact H.
Defined.

(** ** The deadline race of [Read] and [Write] *)

Definition sumN (ks : list N) : N := fold_right N.add 0%N ks.

Lemma io_object_eqb_refl (o : io_object) : io_object_eqb o o = true.
Proof. destruct o; reflexivity. Qed.

Section TimerFirst.

Variable R : Type.
Variable h : handlers R.
Variable o : io_object.
Hypothesis timer_cancels_io : timer_handler R h Success = [CancelObject o].
Hypothesis io_cancels_timer : forall e n r, snd (io_handler R h e n r) = [CancelTimer].

(** Once the timer has fired, the loop cancels the action and stops after
    its handler. *)
Lemma run_after_expiry (lo : option N) (d : N) (r0 : R) (rest : list event) :
  result (run h rest (mk_loop R false (Some (mk_io_op o lo d))
                        [TimerDone Success] r0 None))
  = fst (io_handler R h OperationAborted d r0).
Proof.
  assert (Hd : drain R h 4 (mk_loop R false (Some (mk_io_op o lo d))
                             [TimerDone Success] r0 None)
               = mk_loop R false None [] (fst (io_handler R h OperationAborted d r0))
                         (Some (OperationAborted, d))).
  { simpl. unfold execute at 1. rewrite timer_cancels_io. simpl.
    rewrite io_object_eqb_refl. simpl.
    unfold execute.
    specialize (io_cancels_timer OperationAborted d r0).
    destruct (io_handler R h OperationAborted d r0) as [r cs]. simpl in *.
    subst cs. reflexivity. }
  destruct rest; unfold run; fold (run (R := R)); rewrite Hd; reflexivity.
Qed.

(** The deadline elapses first: the action is cancelled and its handler
    sees [operation_aborted]. *)
Lemma run_timer_first (lo : option N) (d : N) (r0 : R) (rest : list event) :
  result (run h (EvTimerExpire :: rest)
                (mk_loop R true (Some (mk_io_op o lo d)) [] r0 None))
  = fst (io_handler R h OperationAborted d r0).
Proof. apply run_after_expiry. Qed.

(** Data that does not complete the transfer, then the deadline. *)
Lemma run_data_then_timer (len d : N) (ks : list N) (rest : list event) (r0 : R) :
  (d + sumN ks < len)%N ->
  result (run h (map EvData ks ++ EvTimerExpire :: rest)
                (mk_loop R true (Some (mk_io_op o (Some len) d)) [] r0 None))
  = fst (io_handler R h OperationAborted (d + sumN ks) r0).
Proof.
  revert d. induction ks as [|k ks IH]; intros d Hlt.
  - simpl. rewrite N.add_0_r. apply run_timer_first.
  - simpl in Hlt |- *.
    assert (Hk : (len <=? d + k)%N = false) by (apply N.leb_gt; lia).
    rewrite Hk. unfold set_io. simpl.
    rewrite N.add_assoc. apply IH. lia.
Qed.

End TimerFirst.

Lemma start_pending {R} (o : io_object) (len : N) (r0 : R) :
  (0 < len)%N ->
  start (mk_io_op o (Some len) 0%N) r0 = mk_loop R true (Some (mk_io_op o (Some len) 0%N)) [] r0 None.
Proof. intros H. unfold start. simpl. destruct len; [lia | reflexivity]. Qed.

(** The four blocking calls, when the deadline elapses after [ks] bytes of
    a [len]-byte transfer: the result is [ks] converted to [int]. *)
Lemma blocking_io_timer_first (len : N) (ks : list N) (rest : list event)
    (s : ComSerial.ComSerial) (t : ComSocket.ComSocket) :
  (sumN ks < len)%N ->
  let evs := map EvData ks ++ EvTimerExpire :: rest in
  ComSerial.Read len evs s = Some (to_int (sumN ks)) /\
  ComSerial.Write len evs s = Some (to_int (sumN ks)) /\
  ComSocket.Read len evs t = Some (to_int (sumN ks)) /\
  ComSocket.Write len evs t = Some (to_int (sumN ks)).
Proof.
  intros Hlt evs.
  assert (Hpos : (0 < len)%N) by lia.
  unfold ComSerial.Read, ComSerial.Write, ComSocket.Read, ComSocket.Write, run_ec.
  cbn [is_error].
  rewrite !start_pending by exact Hpos.
  unfold evs.
  rewrite !(run_data_then_timer _ _ ObjPort) by (reflexivity || lia ||
    (intros; unfold ComSerial.read_write_handler; reflexivity)).
  rewrite !(run_data_then_timer _ _ ObjSocket) by (reflexivity || lia ||
    (intros; unfold ComSocket.read_write_handler; reflexivity)).
  repeat split.
Qed.

Lemma to_int_small (n : N) : (n < 2 ^ 31)%N -> to_int n = Z.of_N n.
Proof.
  intros H. unfold to_int.
  assert (Hz : (0 <= Z.of_N n < 2 ^ 31)%Z).
  { split; [lia|]. change (2 ^ 31)%Z with (Z.of_N (2 ^ 31)). lia. }
  rewrite Z.mod_small by lia.
  destruct (Z.leb_spec (2 ^ 31) (Z.of_N n)); lia.
Qed.

(** C2 (claim as stated refuted): the handler stores the count into an
    [int]; a 4 GiB read cut short one byte before its end reports [-1]. *)
Lemma blocking_read_timeout_wraps_to_minus_one :
  ComSerial.Read (2 ^ 32) [EvData (2 ^ 32 - 1); EvTimerExpire] ComSerial.initial
  = Some (-1)%Z.
Proof. vm_compute. reflexivity. Qed.

(** C2 (amended): for [Read] and [Write] on both transports, when the
    deadline elapses before the transfer completes, the handler receives
    [operation_aborted] and the call returns the bytes transferred so far
    converted to [int], for every count; below 2^31 bytes that is the
    count itself (possibly 0), never [-1]. *)
Theorem blocking_io_timeout_reports_transferred
    (len : N) (ks : list N) (rest : list event)
    (s : ComSerial.ComSerial) (t : ComSocket.ComSocket) :
  (sumN ks < len)%N ->
  let evs := map EvData ks ++ EvTimerExpire :: rest in
  (ComSerial.Read len evs s = Some (to_int (sumN ks)) /\
   ComSerial.Write len evs s = Some (to_int (sumN ks)) /\
   ComSocket.Read len evs t = Some (to_int (sumN ks)) /\
   ComSocket.Write len evs t = Some (to_int (sumN ks))) /\
  ((sumN ks < 2 ^ 31)%N ->
   ComSerial.Read len evs s = Some (Z.of_N (sumN ks)) /\
   ComSerial.Write len evs s = Some (Z.of_N (sumN ks)) /\
   ComSocket.Read len evs t = Some (Z.of_N (sumN ks)) /\
   ComSocket.Write len evs t = Some (Z.of_N (sumN ks))).
Proof.
  intros Hlt evs.
  pose proof (blocking_io_timer_first len ks rest s t Hlt) as Hgen.
  split; [exact Hgen|].
  intros Hsmall. rewrite <- (to_int_small _ Hsmall). exact Hgen.
Qed.

Lemma blocking_io_timeout_reports_transferred_witness :
  (sumN [3; 4]%N < 10)%N /\ (sumN [3; 4]%N < 2 ^ 31)%N /\
  ComSocket.Read 10 [EvData 3; EvData 4; EvTimerExpire] ComSocket.initial = Some 7%Z.
Proof.
  assert (H1 : (sumN [3; 4]%N < 10)%N) by (vm_compute; reflexivity).
  assert (H2 : (sumN [3; 4]%N < 2 ^ 31)%N) by (vm_compute; reflexivity).
  split; [exact H1|]. split; [exact H2|].
  destruct (blocking_io_timeout_reports_transferred 10 [3; 4]%N [] ComSerial.initial
              ComSocket.initial H1) as [_ Hsmall].
  destruct (Hsmall H2) as (_ & _ & R & _).
  exact R.
Defined.

(** ** The open timeout of [ComSocket] *)

Lemma with_socket_open_address (b : bool) (s : ComSocket.ComSocket) :
  ComSocket.m_address (ComSocket.with_socket_open b s) = ComSocket.m_address s.
Proof. reflexivity. Qed.

(** C1 (defect): in client mode, when the open timeout elapses before the
    connection is made, [timeout_handler] cancels the connect,
    [open_handler] takes its [operation_aborted] for success, the socket
    that [async_connect] opened accepts [non_blocking], and [Open]
    returns [true] with the socket left open. *)
Theorem Open_client_timeout_returns_true
    (env : ComSocket.open_env) (evs : list event) (s : ComSocket.ComSocket) :
  Ip.is_unspecified (ComSocket.m_address s) = false ->
  ComSocket.socket_open_ec env = Success ->
  ComSocket.non_blocking_ec env = Success ->
  fst (fst (ComSocket.Open env (EvTimerExpire :: evs) s)) = true /\
  ComSocket.Opened (snd (fst (ComSocket.Open env (EvTimerExpire :: evs) s))) = true.
Proof.
  intros Hcl Hso Hnb.
  assert (Hrun : result (run (mk_handlers ComSocket.open_handler ComSocket.timeout_handler)
                           (EvTimerExpire :: evs)
                           (start (mk_io_op ObjSocket None 0%N) false)) = true).
  { change (start (mk_io_op ObjSocket None 0%N) false)
      with (mk_loop bool true (Some (mk_io_op ObjSocket None 0%N)) [] false None).
    rewrite (run_timer_first _ _ ObjSocket); reflexivity. }
  unfold ComSocket.Open.
  destruct (ComSocket.m_socket_open s);
    rewrite ?with_socket_open_address, Hcl, Hso;
    cbn [is_error]; rewrite Hrun;
    unfold ComSocket.open_finish, run_ec; rewrite Hnb; cbn [is_error];
    split; reflexivity.
Qed.

Lemma Open_client_timeout_returns_true_witness :
  let s := ComSocket.mk false 1000000 1000000 1000000 (Ip.V4 [10; 255; 255; 1]%Z) 3444 in
  let env := ComSocket.mk_open_env Success Success Success Success in
  ComSocket.construct "10.255.255.1" 3444 1000 = inr s /\
  fst (fst (ComSocket.Open env [EvTimerExpire] s)) = true.
Proof.
  intros s env. split.
  - vm_compute. reflexivity.
  - apply (Open_client_timeout_returns_true env [] s); reflexivity.
Defined.

(** The server branch of the same race: the accept is cancelled, no
    connection is assigned to [m_socket], and [non_blocking] on the
    closed socket makes [Open] return [false]. *)
Lemma Open_server_timeout_returns_false :
  let s := ComSocket.mk false 1000000 1000000 1000000 Ip.default_address 3444 in
  let env := ComSocket.mk_open_env Success Success Success Success in
  fst (fst (ComSocket.Open env [EvTimerExpire] s)) = false.
Proof. vm_compute. reflexivity. Qed.

(** ** Server mode and client mode of [ComSocket] *)

(** What [Open] does, read off the calls it issues: bind-listen-accept,
    or connect to [m_address:m_port]. *)
Definition opens_as_server (s : ComSocket.ComSocket) : Prop :=
  forall env evs,
    In AcceptorOpen (snd (ComSocket.Open env evs s)) /\
    forall p, ~ In (AsyncConnect p) (snd (ComSocket.Open env evs s)).

Definition opens_as_client (s : ComSocket.ComSocket) : Prop :=
  forall env evs,
    In (AsyncConnect (ComSocket.m_port s)) (snd (ComSocket.Open env evs s)) /\
    ~ In AcceptorOpen (snd (ComSocket.Open env evs s)).

Lemma open_finish_keeps ec r so env s log x :
  In x log -> In x (snd (ComSocket.open_finish ec r so env s log)).
Proof.
  intros H. unfold ComSocket.open_finish.
  destruct (is_error ec); [exact H|].
  destruct (is_error (if so then ComSocket.non_blocking_ec env else BadDescriptor));
    simpl; apply in_or_app; left; exact H.
Qed.

Lemma open_finish_adds ec r so env s log x :
  In x (snd (ComSocket.open_finish ec r so env s log)) ->
  In x log \/ x = SocketNonBlocking \/ x = SocketClose.
Proof.
  unfold ComSocket.open_finish.
  destruct (is_error ec); [tauto|].
  destruct (is_error (if so then ComSocket.non_blocking_ec env else BadDescriptor));
    simpl; intros H; apply in_app_or in H; simpl in H; intuition (subst; auto).
Qed.

Lemma Open_mode_server (s : ComSocket.ComSocket) :
  Ip.is_unspecified (ComSocket.m_address s) = true -> opens_as_server s.
Proof.
  intros Hu env evs. unfold ComSocket.Open.
  destruct (ComSocket.m_socket_open s);
    rewrite ?with_socket_open_address, Hu;
    (destruct (is_error (ComSocket.acceptor_setup_ec env));
     [ simpl; split; [tauto | intros p; intuition discriminate]
     | split;
       [ apply open_finish_keeps; apply in_or_app; right; simpl; tauto
       | intros p Hin; apply open_finish_adds in Hin;
         destruct Hin as [Hin | [Hin | Hin]]; try discriminate;
         apply in_app_or in Hin; simpl in Hin; intuition discriminate ] ]).
Qed.

Lemma Open_mode_client (s : ComSocket.ComSocket) :
  Ip.is_unspecified (ComSocket.m_address s) = false -> opens_as_client s.
Proof.
  intros Hu env evs. unfold ComSocket.Open.
  destruct (ComSocket.m_socket_open s);
    rewrite ?with_socket_open_address, Hu;
    destruct (is_error (ComSocket.socket_open_ec env));
    (split;
     [ apply open_finish_keeps; apply in_or_app; right; simpl; tauto
     | intros Hin; apply open_finish_adds in Hin;
       destruct Hin as [Hin | [Hin | Hin]]; try discriminate;
       apply in_app_or in Hin; simpl in Hin; intuition discriminate ]).
Qed.

Lemma SetAddress_empty (s : ComSocket.ComSocket) :
  ComSocket.SetAddress "" s = (true, ComSocket.with_address Ip.default_address s).
Proof. reflexivity. Qed.

Lemma SetAddress_parsed (address : string) (a : Ip.address) (s : ComSocket.ComSocket) :
  address <> ""%string -> Ip.from_string address = Some a ->
  ComSocket.SetAddress address s = (true, ComSocket.with_address a s).
Proof.
  intros Hne Hp. unfold ComSocket.SetAddress.
  destruct (String.eqb_spec address ""); [contradiction|]. rewrite Hp. reflexivity.
Qed.

Lemma SetAddress_unparsed (address : string) (s : ComSocket.ComSocket) :
  address <> ""%string -> Ip.from_string address = None ->
  ComSocket.SetAddress address s = (false, ComSocket.with_address Ip.default_address s).
Proof.
  intros Hne Hp. unfold ComSocket.SetAddress.
  destruct (String.eqb_spec address ""); [contradiction|]. rewrite Hp. reflexivity.
Qed.

(** The constructor keeps the address [SetAddress] stored. *)
Lemma construct_address (address : string) (port timeout : Z) (s' : ComSocket.ComSocket) :
  ComSocket.construct address port timeout = inr s' ->
  exists s1, ComSocket.SetAddress address ComSocket.initial = (true, s1) /\
             ComSocket.m_address s' = ComSocket.m_address s1.
Proof.
  unfold ComSocket.construct.
  destruct (ComSocket.SetAddress address ComSocket.initial) as [ok s1].
  destruct ok; cbn [negb]; [|discriminate].
  unfold ComSocket.SetPort, ComSocket.SetOpenTimeout, ComSocket.SetWriteTimeout,
    ComSocket.SetReadTimeout.
  destruct (port >? 65535)%Z; cbn [negb]; [discriminate|].
  destruct (timeout =? 0)%Z; cbn [negb]; [discriminate|].
  intros E. injection E as <-. exists s1. split; reflexivity.
Qed.

Lemma construct_unparsed (address : string) (port timeout : Z) :
  address <> ""%string -> Ip.from_string address = None ->
  ComSocket.construct address port timeout = inl (invalid_argument "invalid IP address").
Proof.
  intros Hne Hp. unfold ComSocket.construct.
  rewrite (SetAddress_unparsed address _ Hne Hp). reflexivity.
Qed.

(** C3 (claim as stated refuted): "0.0.0.0" is a parsable non-empty
    address, and the constructed socket opens in server mode. *)
Lemma socket_zero_address_is_server :
  exists s, ComSocket.construct "0.0.0.0" 3444 1000 = inr s /\ opens_as_server s.
Proof.
  eexists. split.
  - vm_compute. reflexivity.
  - apply Open_mode_server. reflexivity.
Qed.

(** C3 (amended): with address "" the socket opens in server mode; a
    parsable non-empty address gives client mode unless it is an
    unspecified address (0.0.0.0, ::), which gives server mode; an
    unparsable one makes [SetAddress] return [false] and the constructor
    throw [invalid_argument].  Both for [SetAddress] on any object and for
    the constructor. *)
Theorem socket_mode_selection (address : string) :
  (forall s, address = ""%string ->
     fst (ComSocket.SetAddress address s) = true /\
     opens_as_server (snd (ComSocket.SetAddress address s))) /\
  (forall s a, address <> ""%string -> Ip.from_string address = Some a ->
     fst (ComSocket.SetAddress address s) = true /\
     (Ip.is_unspecified a = false -> opens_as_client (snd (ComSocket.SetAddress address s))) /\
     (Ip.is_unspecified a = true -> opens_as_server (snd (ComSocket.SetAddress address s)))) /\
  (address <> ""%string -> Ip.from_string address = None ->
     (forall s, fst (ComSocket.SetAddress address s) = false) /\
     forall port timeout,
       ComSocket.construct address port timeout = inl (invalid_argument "invalid IP address")) /\
  (forall port timeout s', ComSocket.construct address port timeout = inr s' ->
     (address = ""%string -> opens_as_server s') /\
     (forall a, address <> ""%string -> Ip.from_string address = Some a ->
        (Ip.is_unspecified a = false -> opens_as_client s') /\
        (Ip.is_unspecified a = true -> opens_as_server s'))).
Proof.
  split; [|split; [|split]].
  - intros s ->. rewrite SetAddress_empty. split; [reflexivity|].
    apply Open_mode_server. reflexivity.
  - intros s a Hne Hp. rewrite (SetAddress_parsed address a s Hne Hp).
    split; [reflexivity|]. split.
    + intros Hu. apply Open_mode_client. exact Hu.
    + intros Hu. apply Open_mode_server. exact Hu.
  - intros Hne Hp. split.
    + intros s. rewrite (SetAddress_unparsed address s Hne Hp). reflexivity.
    + intros port timeout. apply construct_unparsed; assumption.
  - intros port timeout s' Hc.
    destruct (construct_address address port timeout s' Hc) as (s1 & Hs1 & Ha).
    split.
    + intros ->. rewrite SetAddress_empty in Hs1. injection Hs1 as <-.
      apply Open_mode_server. rewrite Ha. reflexivity.
    + intros a Hne Hp. rewrite (SetAddress_parsed address a _ Hne Hp) in Hs1.
      injection Hs1 as <-. split.
      * intros Hu. apply Open_mode_client. rewrite Ha. exact Hu.
      * intros Hu. apply Open_mode_server. rewrite Ha. exact Hu.
Qed.

(** C9: a non-empty text that parses to an unspecified address ("0.0.0.0",
    "::") is accepted by [SetAddress], yet [GetAddress] then returns ""
    (not the text given) and [Open] takes the server branch. *)
Theorem SetAddress_unspecified_reads_back_empty
    (to_string : Ip.address -> string) (address : string) (a : Ip.address)
    (s : ComSocket.ComSocket) :
  address <> ""%string -> Ip.from_string address = Some a -> Ip.is_unspecified a = true ->
  fst (ComSocket.SetAddress address s) = true /\
  ComSocket.GetAddress to_string (snd (ComSocket.SetAddress address s)) = ""%string /\
  ComSocket.GetAddress to_string (snd (ComSocket.SetAddress address s)) <> address /\
  opens_as_server (snd (ComSocket.SetAddress address s)).
Proof.
  intros Hne Hp Hu. rewrite (SetAddress_parsed address a s Hne Hp). simpl.
  unfold ComSocket.GetAddress. simpl. rewrite Hu.
  split; [reflexivity|]. split; [reflexivity|]. split.
  - intros E. apply Hne. symmetry. exact E.
  - apply Open_mode_server. exact Hu.
Qed.

Lemma SetAddress_unspecified_reads_back_empty_witness :
  "::"%string <> ""%string /\
  Ip.from_string "::" = Some (Ip.V6 (repeat 0%Z 16) None) /\
  ComSocket.GetAddress (fun _ => "?"%string)
    (snd (ComSocket.SetAddress "::" ComSocket.initial)) = ""%string.
Proof.
  assert (H1 : "::"%string <> ""%string) by discriminate.
  assert (H2 : Ip.from_string "::" = Some (Ip.V6 (repeat 0%Z 16) None))
    by (vm_compute; reflexivity).
  split; [exact H1|]. split; [exact H2|].
  destruct (SetAddress_unspecified_reads_back_empty (fun _ => "?"%string) "::" _
              ComSocket.initial H1 H2 eq_refl) as (_ & R & _).
  exact R.
Defined.

(** * Further properties of the code *)

(** ** Every outcome of the deadline race *)

Section Outcomes.

Variable R : Type.
Variable h : handlers R.
Variable o : io_object.
Hypothesis timer_cancels_io : timer_handler R h Success = [CancelObject o].
Hypothesis timer_ignores_abort : timer_handler R h OperationAborted = [].
Hypothesis io_cancels_timer : forall e n r, snd (io_handler R h e n r) = [CancelTimer].

(** While the timer and the action are both pending, the loop waits for
    the next event. *)
Lemma run_wait (s : loop_state R) (ev : event) (rest : list event) :
  ready R s = [] -> timer_pending R s = true ->
  run h (ev :: rest) s = run h rest (deliver R ev s).
Proof.
  destruct s as [tp io q r out]. simpl. intros -> ->. reflexivity.
Qed.

(** The action completed first: its handler runs, cancels the timer, and
    the loop stops. *)
Lemma run_after_io (e : error_code) (n : N) (r0 : R) (rest : list event) :
  result (run h rest (mk_loop R true None [IoDone e n] r0 None))
  = fst (io_handler R h e n r0).
Proof.
  assert (Hd : drain R h 4 (mk_loop R true None [IoDone e n] r0 None)
               = mk_loop R false None [] (fst (io_handler R h e n r0)) (Some (e, n))).
  { simpl. unfold execute at 1.
    specialize (io_cancels_timer e n r0).
    destruct (io_handler R h e n r0) as [r cs]. simpl in *. subst cs.
    simpl. unfold execute. rewrite timer_ignores_abort. reflexivity. }
  destruct rest; unfold run; fold (run (R := R)); rewrite Hd; reflexivity.
Qed.

Lemma drain_after_expiry (lo : option N) (d : N) (r0 : R) :
  drain R h 4 (mk_loop R false (Some (mk_io_op o lo d)) [TimerDone Success] r0 None)
  = mk_loop R false None [] (fst (io_handler R h OperationAborted d r0))
      (Some (OperationAborted, d)).
Proof.
  simpl. unfold execute at 1. rewrite timer_cancels_io. simpl.
  rewrite io_object_eqb_refl. simpl. unfold execute.
  specialize (io_cancels_timer OperationAborted d r0).
  destruct (io_handler R h OperationAborted d r0) as [r cs]. simpl in *.
  subst cs. reflexivity.
Qed.

(** Whatever happens, a read or write of [len] bytes ends with its handler
    run once, on some code and a count of at most [len] bytes. *)
Lemma run_transfer_outcome (len d : N) (evs : list event) (r0 : R) :
  (d < len)%N ->
  exists e n, (n <= len)%N /\
    result (run h evs (mk_loop R true (Some (mk_io_op o (Some len) d)) [] r0 None))
    = fst (io_handler R h e n r0).
Proof.
  revert d. induction evs as [|ev evs IH]; intros d Hd.
  - exists OperationAborted, d. split; [lia|].
    change (run h [] (mk_loop R true (Some (mk_io_op o (Some len) d)) [] r0 None))
      with (drain R h 4 (mk_loop R false (Some (mk_io_op o (Some len) d))
                           [TimerDone Success] r0 None)).
    rewrite drain_after_expiry. reflexivity.
  - rewrite run_wait by reflexivity.
    destruct ev as [| k | | e]; simpl deliver.
    + exists OperationAborted, d. split; [lia|].
      apply run_after_expiry; assumption.
    + destruct (N.leb_spec len (d + k)).
      * exists Success, len. split; [lia|]. apply run_after_io.
      * apply IH. lia.
    + apply IH. exact Hd.
    + exists e, d. split; [lia|]. apply run_after_io.
Qed.

(** The transfer reaches [len] bytes before the deadline. *)
Lemma run_transfer_complete (len d : N) (ks : list N) (rest : list event) (r0 : R) :
  (d < len)%N -> (len <= d + sumN ks)%N ->
  result (run h (map EvData ks ++ rest)
                (mk_loop R true (Some (mk_io_op o (Some len) d)) [] r0 None))
  = fst (io_handler R h Success len r0).
Proof.
  revert d. induction ks as [|k ks IH]; intros d Hd Hge.
  - simpl in Hge. lia.
  - simpl in Hge. cbn [map app]. rewrite run_wait by reflexivity. simpl deliver.
    destruct (N.leb_spec len (d + k)).
    + apply run_after_io.
    + apply IH; lia.
Qed.

(** The action fails before it completes and before the deadline. *)
Lemma run_transfer_error (len d : N) (ks : list N) (e : error_code)
    (rest : list event) (r0 : R) :
  (d + sumN ks < len)%N ->
  result (run h (map EvData ks ++ EvIoError e :: rest)
                (mk_loop R true (Some (mk_io_op o (Some len) d)) [] r0 None))
  = fst (io_handler R h e (d + sumN ks) r0).
Proof.
  revert d. induction ks as [|k ks IH]; intros d Hlt.
  - cbn [map app]. replace (d + sumN [])%N with d by (unfold sumN; simpl; lia).
    rewrite run_wait by reflexivity. apply run_after_io.
  - simpl in Hlt. cbn [map app]. rewrite run_wait by reflexivity. simpl deliver.
    destruct (N.leb_spec len (d + k)); [lia|].
    replace (d + sumN (k :: ks))%N with (d + k + sumN ks)%N by (unfold sumN; simpl; lia).
    apply IH. lia.
Qed.

End Outcomes.

(** The blocking read and write handlers store [-1] or the count
    converted to [int]. *)
Lemma transfer_result (h : handlers (option Z)) (o : io_object) (len : N)
    (evs : list event) :
  timer_handler _ h Success = [CancelObject o] ->
  timer_handler _ h OperationAborted = [] ->
  (forall e n r, snd (io_handler _ h e n r) = [CancelTimer]) ->
  (forall e n r, fst (io_handler _ h e n r) = Some (-1)%Z \/
                 fst (io_handler _ h e n r) = Some (to_int n)) ->
  exists r, result (run h evs (start (mk_io_op o (Some len) 0%N) None)) = Some r /\
    (r = (-1)%Z \/ exists n, (n <= len)%N /\ r = to_int n).
Proof.
  intros Ht Ha Hc Hr.
  assert (Hgen : forall e n, (n <= len)%N ->
            exists r, fst (io_handler _ h e n None) = Some r /\
              (r = (-1)%Z \/ exists n, (n <= len)%N /\ r = to_int n)).
  { intros e n Hn. destruct (Hr e n None) as [-> | ->]; eexists; split;
      [reflexivity | left; reflexivity | reflexivity | right; eauto]. }
  destruct (N.eq_dec len 0) as [-> | Hpos].
  - change (start (mk_io_op o (Some 0%N) 0%N) None)
      with (mk_loop (option Z) true None [IoDone Success 0%N] None None).
    rewrite run_after_io by assumption.
    apply Hgen. lia.
  - rewrite start_pending by lia.
    destruct (run_transfer_outcome _ h o Ht Ha Hc len 0 evs None) as [e [n [Hn ->]]];
      [lia|].
    apply Hgen. exact Hn.
Qed.

Lemma to_int_le (n len : N) :
  (n <= len)%N -> (len < 2 ^ 31)%N -> (0 <= to_int n <= Z.of_N len)%Z.
Proof. intros H1 H2. rewrite to_int_small by lia. lia. Qed.

Lemma serial_handlers_shape :
  timer_handler _ ComSerial.rw_handlers Success = [CancelObject ObjPort] /\
  timer_handler _ ComSerial.rw_handlers OperationAborted = [] /\
  (forall e n r, snd (io_handler _ ComSerial.rw_handlers e n r) = [CancelTimer]) /\
  (forall e n r, fst (io_handler _ ComSerial.rw_handlers e n r) = Some (-1)%Z \/
                 fst (io_handler _ ComSerial.rw_handlers e n r) = Some (to_int n)).
Proof.
  repeat split; intros; simpl; unfold ComSerial.read_write_handler; simpl;
    destruct (is_error e && negb (is_aborted e)); auto.
Qed.

Lemma socket_handlers_shape :
  timer_handler _ ComSocket.rw_handlers Success = [CancelObject ObjSocket] /\
  timer_handler _ ComSocket.rw_handlers OperationAborted = [] /\
  (forall e n r, snd (io_handler _ ComSocket.rw_handlers e n r) = [CancelTimer]) /\
  (forall e n r, fst (io_handler _ ComSocket.rw_handlers e n r) = Some (-1)%Z \/
                 fst (io_handler _ ComSocket.rw_handlers e n r) = Some (to_int n)).
Proof.
  repeat split; intros; simpl; unfold ComSocket.read_write_handler; simpl;
    destruct (is_error e && negb (is_aborted e)); auto.
Qed.

(** X1: [Read] and [Write] on both transports always return a value set
    by the handler (the uninitialised [ret_code] is never returned), for
    every [len]: [-1] or a count of at most [len] bytes converted to
    [int]; for a transfer below 2^31 bytes, a value between [-1] and
    [len]. *)
Theorem blocking_io_definite_result (len : N) (evs : list event)
    (s : ComSerial.ComSerial) (t : ComSocket.ComSocket) :
  let handler_value (r : Z) :=
    (r = (-1)%Z \/ exists n, (n <= len)%N /\ r = to_int n) /\
    ((len < 2 ^ 31)%N -> (-1 <= r <= Z.of_N len)%Z) in
  (exists r, ComSerial.Read len evs s = Some r /\ handler_value r) /\
  (exists r, ComSerial.Write len evs s = Some r /\ handler_value r) /\
  (exists r, ComSocket.Read len evs t = Some r /\ handler_value r) /\
  (exists r, ComSocket.Write len evs t = Some r /\ handler_value r).
Proof.
  intros handler_value.
  destruct serial_handlers_shape as [Sa [Sb [Sc Sd]]].
  destruct socket_handlers_shape as [Ta [Tb [Tc Td]]].
  destruct (transfer_result _ ObjPort len evs Sa Sb Sc Sd) as [r1 [H1 R1]].
  destruct (transfer_result _ ObjSocket len evs Ta Tb Tc Td) as [r2 [H2 R2]].
  unfold ComSerial.Read, ComSerial.Write, ComSocket.Read, ComSocket.Write, run_ec.
  cbn [is_error]. rewrite H1, H2.
  assert (Hr : forall r, (r = (-1)%Z \/ exists n, (n <= len)%N /\ r = to_int n) ->
                 handler_value r).
  { intros r Hv. split; [exact Hv|]. intros Hlen.
    destruct Hv as [-> | [n [Hn ->]]]; [lia|].
    pose proof (to_int_le n len Hn Hlen). lia. }
  repeat split; eexists; split; try reflexivity; apply Hr; assumption.
Qed.

Lemma blocking_io_definite_result_witness :
  exists r, ComSerial.Read 10 [EvData 4; EvIoError BadDescriptor] ComSerial.initial = Some r
            /\ (-1 <= r <= 10)%Z.
Proof.
  destruct (blocking_io_definite_result 10 [EvData 4; EvIoError BadDescriptor]
              ComSerial.initial ComSocket.initial) as [[r [Hr [_ Hrange]]] _].
  exists r. split; [exact Hr|]. apply Hrange. lia.
Defined.

Lemma transfer_complete (h : handlers (option Z)) (o : io_object) (len : N)
    (ks : list N) (rest : list event) :
  timer_handler _ h Success = [CancelObject o] ->
  timer_handler _ h OperationAborted = [] ->
  (forall e n r, snd (io_handler _ h e n r) = [CancelTimer]) ->
  (len <= sumN ks)%N ->
  result (run h (map EvData ks ++ rest) (start (mk_io_op o (Some len) 0%N) None))
  = fst (io_handler _ h Success len None).
Proof.
  intros Ht Ha Hc Hge.
  destruct (N.eq_dec len 0) as [-> | Hpos].
  - change (start (mk_io_op o (Some 0%N) 0%N) None)
      with (mk_loop (option Z) true None [IoDone Success 0%N] None None).
    apply run_after_io; assumption.
  - rewrite start_pending by lia.
    apply (run_transfer_complete _ h o Ha Hc); lia.
Qed.

(** X2: when the data reaches [len] bytes before the deadline (at once
    for an empty transfer), [Read] and [Write] on both transports return
    [len] (below 2^31 bytes). *)
Theorem blocking_io_completes (len : N) (ks : list N) (rest : list event)
    (s : ComSerial.ComSerial) (t : ComSocket.ComSocket) :
  (len <= sumN ks)%N -> (len < 2 ^ 31)%N ->
  let evs := map EvData ks ++ rest in
  ComSerial.Read len evs s = Some (Z.of_N len) /\
  ComSerial.Write len evs s = Some (Z.of_N len) /\
  ComSocket.Read len evs t = Some (Z.of_N len) /\
  ComSocket.Write len evs t = Some (Z.of_N len).
Proof.
  intros Hge Hlen evs.
  destruct serial_handlers_shape as [Sa [Sb [Sc _]]].
  destruct socket_handlers_shape as [Ta [Tb [Tc _]]].
  unfold ComSerial.Read, ComSerial.Write, ComSocket.Read, ComSocket.Write, run_ec, evs.
  cbn [is_error].
  rewrite (transfer_complete _ ObjPort len ks rest Sa Sb Sc Hge).
  rewrite (transfer_complete _ ObjSocket len ks rest Ta Tb Tc Hge).
  simpl. unfold ComSerial.read_write_handler, ComSocket.read_write_handler. simpl.
  rewrite to_int_small by exact Hlen. repeat split.
Qed.

Lemma blocking_io_completes_witness :
  (6 <= sumN [4; 4])%N /\ (6 < 2 ^ 31)%N /\
  ComSocket.Read 6 (map EvData [4; 4]%N ++ [EvIoError BadDescriptor]) ComSocket.initial
  = Some 6%Z.
Proof.
  split; [vm_compute; discriminate|]. split; [lia|].
  apply (blocking_io_completes 6 [4; 4]%N [EvIoError BadDescriptor]
           ComSerial.initial ComSocket.initial); [vm_compute; discriminate | lia].
Defined.

(** X3: when the line or the connection reports an error (other than
    [operation_aborted]) before the transfer completes and before the
    deadline, [Read] and [Write] on both transports return [-1], whatever
    was transferred before. *)
Theorem blocking_io_error_minus_one (len : N) (ks : list N) (e : error_code)
    (rest : list event) (s : ComSerial.ComSerial) (t : ComSocket.ComSocket) :
  (sumN ks < len)%N -> is_error e = true -> is_aborted e = false ->
  let evs := map EvData ks ++ EvIoError e :: rest in
  ComSerial.Read len evs s = Some (-1)%Z /\
  ComSerial.Write len evs s = Some (-1)%Z /\
  ComSocket.Read len evs t = Some (-1)%Z /\
  ComSocket.Write len evs t = Some (-1)%Z.
Proof.
  intros Hlt He Ha evs.
  destruct serial_handlers_shape as [Sa [Sb [Sc _]]].
  destruct socket_handlers_shape as [Ta [Tb [Tc _]]].
  unfold ComSerial.Read, ComSerial.Write, ComSocket.Read, ComSocket.Write, run_ec, evs.
  cbn [is_error].
  rewrite !start_pending by lia.
  rewrite (run_transfer_error _ ComSerial.rw_handlers ObjPort Sb Sc len 0 ks e rest None)
    by lia.
  rewrite (run_transfer_error _ ComSocket.rw_handlers ObjSocket Tb Tc len 0 ks e rest None)
    by lia.
  simpl. unfold ComSerial.read_write_handler, ComSocket.read_write_handler.
  rewrite He, Ha. repeat split.
Qed.

Lemma blocking_io_error_minus_one_witness :
  ComSerial.Write 8 (map EvData [3%N] ++ EvIoError (OtherError 5) :: []) ComSerial.initial
  = Some (-1)%Z.
Proof.
  apply (blocking_io_error_minus_one 8 [3%N] (OtherError 5) [] ComSerial.initial
           ComSocket.initial); [vm_compute; reflexivity | reflexivity | reflexivity].
Defined.

(** ** Opening and closing *)

(** X4: the serial [Open] returns [true] exactly when it leaves the port
    open: every failure path closes the port again. *)
Theorem serial_Open_result_is_open_state (open_ec : error_code)
    (exclusive_ok options_ok : bool) (s : ComSerial.ComSerial) :
  ComSerial.Opened (snd (ComSerial.Open open_ec exclusive_ok options_ok s))
  = fst (ComSerial.Open open_ec exclusive_ok options_ok s).
Proof.
  unfold ComSerial.Open, ComSerial.Opened.
  destruct (ComSerial.m_port_open s) eqn:E;
    destruct (is_error open_ec), exclusive_ok, options_ok; simpl; auto.
Qed.

(** X5: opening a serial port that is already open gives the same result
    and the same object as closing it first and then opening it. *)
Theorem serial_reopen_is_close_then_open (open_ec close_ec : error_code)
    (exclusive_ok options_ok : bool) (s : ComSerial.ComSerial) :
  ComSerial.Open open_ec exclusive_ok options_ok s
  = ComSerial.Open open_ec exclusive_ok options_ok (snd (ComSerial.Close close_ec s)).
Proof.
  unfold ComSerial.Open, ComSerial.Close.
  destruct (ComSerial.m_port_open s) eqn:E; [destruct (is_error close_ec)|];
    simpl; rewrite ?E; reflexivity.
Qed.

(** X6: whatever the mode, when the socket [Open] returns [true] the
    socket is open afterwards. *)
Theorem socket_Open_true_opened (env : ComSocket.open_env) (evs : list event)
    (s : ComSocket.ComSocket) :
  fst (fst (ComSocket.Open env evs s)) = true ->
  ComSocket.Opened (snd (fst (ComSocket.Open env evs s))) = true.
Proof.
  assert (Hf : forall ec r so s0 log,
             fst (fst (ComSocket.open_finish ec r so env s0 log)) = true ->
             ComSocket.Opened (snd (fst (ComSocket.open_finish ec r so env s0 log))) = true).
  { intros ec r so s0 log. unfold ComSocket.open_finish.
    destruct (is_error ec); [discriminate|].
    destruct so; cbn [is_error]; [|discriminate].
    destruct (is_error (ComSocket.non_blocking_ec env)); [discriminate|].
    intros _. reflexivity. }
  unfold ComSocket.Open.
  destruct (ComSocket.m_socket_open s); cbn beta iota;
    (destruct (Ip.is_unspecified _);
     [destruct (is_error (ComSocket.acceptor_setup_ec env)); [discriminate|apply Hf]
     |destruct (is_error (ComSocket.socket_open_ec env)); apply Hf]).
Qed.

Lemma socket_Open_true_opened_witness :
  let env := ComSocket.mk_open_env Success Success Success Success in
  let s := ComSocket.with_address (Ip.V4 [192; 168; 1; 7]%Z) ComSocket.initial in
  fst (fst (ComSocket.Open env [EvIoComplete] s)) = true /\
  ComSocket.Opened (snd (fst (ComSocket.Open env [EvIoComplete] s))) = true.
Proof.
  intros env s. split; [vm_compute; reflexivity|].
  apply socket_Open_true_opened. vm_compute. reflexivity.
Defined.

(** X7: in client mode, when the connection attempt fails with an error
    before the deadline, [Open] returns [false] but leaves the socket
    open: [Opened] then answers [true]. *)
Theorem socket_connect_error_leaves_socket_open (env : ComSocket.open_env)
    (e : error_code) (rest : list event) (s : ComSocket.ComSocket) :
  Ip.is_unspecified (ComSocket.m_address s) = false ->
  ComSocket.socket_open_ec env = Success ->
  ComSocket.non_blocking_ec env = Success ->
  is_error e = true -> is_aborted e = false ->
  fst (fst (ComSocket.Open env (EvIoError e :: rest) s)) = false /\
  ComSocket.Opened (snd (fst (ComSocket.Open env (EvIoError e :: rest) s))) = true.
Proof.
  intros Ha Hso Hnb He Hab.
  assert (Hrun : result (run (mk_handlers ComSocket.open_handler ComSocket.timeout_handler)
                           (EvIoError e :: rest)
                           (start (mk_io_op ObjSocket None 0%N) false)) = false).
  { change (start (mk_io_op ObjSocket None 0%N) false)
      with (mk_loop bool true (Some (mk_io_op ObjSocket None 0%N)) [] false None).
    rewrite run_wait by reflexivity.
    change (deliver bool (EvIoError e)
              (mk_loop bool true (Some (mk_io_op ObjSocket None 0%N)) [] false None))
      with (mk_loop bool true None [IoDone e 0%N] false None).
    rewrite run_after_io; [| reflexivity | reflexivity].
    simpl. unfold ComSocket.open_handler. rewrite He, Hab. reflexivity. }
  unfold ComSocket.Open.
  destruct (ComSocket.m_socket_open s); cbn beta iota;
    rewrite ?with_socket_open_address, Ha, Hso; cbn [is_error]; rewrite Hrun;
    unfold ComSocket.open_finish, run_ec; cbn [is_error]; rewrite Hnb; cbn [is_error];
    split; reflexivity.
Qed.

Lemma socket_connect_error_leaves_socket_open_witness :
  let env := ComSocket.mk_open_env Success Success Success Success in
  let s := ComSocket.with_address (Ip.V4 [10; 0; 0; 1]%Z) ComSocket.initial in
  fst (fst (ComSocket.Open env [EvIoError (OtherError 111)] s)) = false /\
  ComSocket.Opened (snd (fst (ComSocket.Open env [EvIoError (OtherError 111)] s))) = true.
Proof.
  intros env s.
  apply socket_connect_error_leaves_socket_open; reflexivity.
Defined.

(** X8: opening a socket that is already open gives the same result and
    the same object as closing it first and then opening it. *)
Theorem socket_reopen_is_close_then_open (env : ComSocket.open_env)
    (evs : list event) (close_ec : error_code) (s : ComSocket.ComSocket) :
  fst (ComSocket.Open env evs s)
  = fst (ComSocket.Open env evs (snd (ComSocket.Close close_ec s))).
Proof.
  unfold ComSocket.Close.
  destruct (ComSocket.m_socket_open s) eqn:Ho;
    [|destruct (is_error Success); reflexivity].
  destruct (is_error close_ec); cbn [snd];
  unfold ComSocket.Open; rewrite Ho; cbn [ComSocket.m_socket_open ComSocket.with_socket_open];
  cbn beta iota; unfold ComSocket.open_finish;
  repeat match goal with
         | |- context [if ?c then _ else _] => destruct c
         end; reflexivity.
Qed.

(** X9: after [Close] the port or socket is released, whatever [Close]
    returns. *)
Theorem Close_releases (close_ec : error_code) (s : ComSerial.ComSerial)
    (t : ComSocket.ComSocket) :
  ComSerial.Opened (snd (ComSerial.Close close_ec s)) = false /\
  ComSocket.Opened (snd (ComSocket.Close close_ec t)) = false.
Proof.
  unfold ComSerial.Close, ComSocket.Close.
  unfold ComSerial.Opened, ComSocket.Opened.
  destruct (ComSerial.m_port_open s) eqn:E1, (ComSocket.m_socket_open t) eqn:E2;
    destruct (is_error close_ec); simpl; auto.
Qed.

(** ** Configuration of the serial line *)

Definition flow_accepted (c : ascii) : bool :=
  existsb (Ascii.eqb c) ["h"; "H"; "s"; "S"; "n"; "N"]%char.

(** ASCII lower case, the form in which the getters answer. *)
Definition to_lower (c : ascii) : ascii :=
  let n := nat_of_ascii c in
  if (65 <=? n)%nat && (n <=? 90)%nat then ascii_of_nat (n + 32) else c.

Ltac ascii_cases c :=
  repeat match goal with
         | |- context [Ascii.eqb c ?k] =>
             destruct (Ascii.eqb_spec c k); [subst c|]
         end.

Lemma SetStopBits_cases (sb : Z) :
  (In sb [1; 2; 3]%Z /\ exists c,
     (forall s, ComSerial.SetStopBits sb s = (true, ComSerial.with_stop_bits c s)) /\
     (forall s, ComSerial.GetStopBits (ComSerial.with_stop_bits c s) = sb)) \/
  (~ In sb [1; 2; 3]%Z /\ forall s, ComSerial.SetStopBits sb s = (false, s)).
Proof.
  unfold ComSerial.SetStopBits.
  destruct (Z.eqb_spec sb 1); [subst; left; split; [simpl; auto|];
    eexists; split; intros; reflexivity|].
  destruct (Z.eqb_spec sb 2); [subst; left; split; [simpl; auto|];
    eexists; split; intros; reflexivity|].
  destruct (Z.eqb_spec sb 3); [subst; left; split; [simpl; auto|];
    eexists; split; intros; reflexivity|].
  right. split; [simpl; intuition congruence | reflexivity].
Qed.

Lemma SetParity_cases (p : ascii) :
  (parity_accepted p = true /\ exists c,
     (forall s, ComSerial.SetParity p s = (true, ComSerial.with_parity c s)) /\
     (forall s, ComSerial.GetParity (ComSerial.with_parity c s) = to_lower p)) \/
  (parity_accepted p = false /\ forall s, ComSerial.SetParity p s = (false, s)).
Proof.
  unfold ComSerial.SetParity, parity_accepted. simpl existsb.
  ascii_cases p;
    try (left; split; [reflexivity|]; eexists; split; intros; reflexivity).
  right. split; [reflexivity | intros; reflexivity].
Qed.

Lemma SetFlowControl_cases (f : ascii) :
  (flow_accepted f = true /\ exists c,
     (forall s, ComSerial.SetFlowControl f s = (true, ComSerial.with_flow_control c s)) /\
     (forall s, ComSerial.GetFlowControl (ComSerial.with_flow_control c s) = to_lower f)) \/
  (flow_accepted f = false /\ forall s, ComSerial.SetFlowControl f s = (false, s)).
Proof.
  unfold ComSerial.SetFlowControl, flow_accepted. simpl existsb.
  ascii_cases f;
    try (left; split; [reflexivity|]; eexists; split; intros; reflexivity).
  right. split; [reflexivity | intros; reflexivity].
Qed.

(** X10: the line-code setters accept exactly 1, 2 and 3 stop bits, the
    parity letters e, o, n and the flow-control letters h, s, n in either
    case; an accepted value reads back through the getter (letters in
    lower case); a refused one leaves the object as it was. *)
Theorem line_code_setters_roundtrip (s : ComSerial.ComSerial) (sb : Z)
    (p f : ascii) :
  (fst (ComSerial.SetStopBits sb s) = true <-> In sb [1; 2; 3]%Z) /\
  (fst (ComSerial.SetStopBits sb s) = true ->
     ComSerial.GetStopBits (snd (ComSerial.SetStopBits sb s)) = sb) /\
  (fst (ComSerial.SetStopBits sb s) = false -> snd (ComSerial.SetStopBits sb s) = s) /\
  fst (ComSerial.SetParity p s) = parity_accepted p /\
  (fst (ComSerial.SetParity p s) = true ->
     ComSerial.GetParity (snd (ComSerial.SetParity p s)) = to_lower p) /\
  (fst (ComSerial.SetParity p s) = false -> snd (ComSerial.SetParity p s) = s) /\
  fst (ComSerial.SetFlowControl f s) = flow_accepted f /\
  (fst (ComSerial.SetFlowControl f s) = true ->
     ComSerial.GetFlowControl (snd (ComSerial.SetFlowControl f s)) = to_lower f) /\
  (fst (ComSerial.SetFlowControl f s) = false -> snd (ComSerial.SetFlowControl f s) = s).
Proof.
  destruct (SetStopBits_cases sb) as [[Hin [c [Hs Hg]]] | [Hin Hs]];
  destruct (SetParity_cases p) as [[Hp [cp [Ps Pg]]] | [Hp Ps]];
  destruct (SetFlowControl_cases f) as [[Hf [cf [Fs Fg]]] | [Hf Fs]];
  rewrite ?Hs, ?Ps, ?Fs; cbn [fst snd];
  repeat split; try tauto; try congruence; auto; discriminate.
Qed.

Definition serial_params_valid (device : string) (baud_rate stop_bits : Z)
    (parity flow_control : ascii) (timeout : Z) : Prop :=
  device <> ""%string /\ baud_rate <> 0%Z /\ In stop_bits [1; 2; 3]%Z /\
  parity_accepted parity = true /\ flow_accepted flow_control = true /\
  timeout <> 0%Z.

Lemma serial_construct_cases (d : string) (b db sb : Z) (p f : ascii) (t : Z) :
  (serial_params_valid d b sb p f t /\ exists s,
     ComSerial.construct d b db sb p f t = inr s /\
     ComSerial.Opened s = false /\ ComSerial.GetDevice s = d /\
     ComSerial.GetBaudRate s = b /\ ComSerial.GetDataBits s = db /\
     ComSerial.GetStopBits s = sb /\ ComSerial.GetParity s = to_lower p /\
     ComSerial.GetFlowControl s = to_lower f /\
     ComSerial.m_write_timeout s = milliseconds t /\
     ComSerial.m_read_timeout s = milliseconds t) \/
  (~ serial_params_valid d b sb p f t /\ exists e,
     ComSerial.construct d b db sb p f t = inl e).
Proof.
  unfold serial_params_valid, ComSerial.construct, ComSerial.SetDevice,
    ComSerial.SetBaudRate, ComSerial.SetDataBits.
  destruct (String.eqb_spec d "") as [Hd | Hd];
    cbn beta iota zeta delta [negb];
    [right; split; [tauto | eexists; reflexivity]|].
  destruct (Z.eqb_spec b 0) as [Hb | Hb];
    cbn beta iota zeta delta [negb];
    [right; split; [tauto | eexists; reflexivity]|].
  destruct (SetStopBits_cases sb) as [[Hin [c [Hs Hg]]] | [Hin Hs]];
    rewrite Hs; cbn beta iota zeta delta [negb];
    [|right; split; [tauto | eexists; reflexivity]].
  destruct (SetParity_cases p) as [[Hp [cp [Ps Pg]]] | [Hp Ps]];
    rewrite Ps; cbn beta iota zeta delta [negb];
    [|right; split; [intuition congruence | eexists; reflexivity]].
  destruct (SetFlowControl_cases f) as [[Hf [cf [Fs Fg]]] | [Hf Fs]];
    rewrite Fs; cbn beta iota zeta delta [negb];
    [|right; split; [intuition congruence | eexists; reflexivity]].
  unfold ComSerial.SetWriteTimeout, ComSerial.SetReadTimeout.
  destruct (Z.eqb_spec t 0) as [Ht | Ht];
    cbn beta iota zeta delta [negb];
    [right; split; [tauto | eexists; reflexivity]|].
  left. split; [tauto|]. eexists. split; [reflexivity|].
  repeat split.
  - etransitivity; [|apply (Hg ComSerial.initial)]; reflexivity.
  - etransitivity; [|apply (Pg ComSerial.initial)]; reflexivity.
  - etransitivity; [|apply (Fg ComSerial.initial)]; reflexivity.
Qed.

(** X11: the serial constructor succeeds exactly when every argument is
    accepted by its setter; the object it builds is closed and its
    getters return the arguments (parity and flow control in lower case,
    both timeouts equal to [timeout]). *)
Theorem serial_constructor_validates (device : string)
    (baud_rate data_bits stop_bits : Z) (parity flow_control : ascii) (timeout : Z) :
  (0 <= timeout < 2 ^ 32)%Z ->
  ((exists s, ComSerial.construct device baud_rate data_bits stop_bits parity
                flow_control timeout = inr s) <->
   serial_params_valid device baud_rate stop_bits parity flow_control timeout) /\
  (forall s, ComSerial.construct device baud_rate data_bits stop_bits parity
               flow_control timeout = inr s ->
     ComSerial.Opened s = false /\ ComSerial.GetDevice s = device /\
     ComSerial.GetBaudRate s = baud_rate /\ ComSerial.GetDataBits s = data_bits /\
     ComSerial.GetStopBits s = stop_bits /\ ComSerial.GetParity s = to_lower parity /\
     ComSerial.GetFlowControl s = to_lower flow_control /\
     ComSerial.GetWriteTimeout s = timeout /\ ComSerial.GetReadTimeout s = timeout).
Proof.
  intros Ht.
  destruct (serial_construct_cases device baud_rate data_bits stop_bits parity
              flow_control timeout)
    as [[Hv [s0 [Hc [H1 [H2 [H3 [H4 [H5 [H6 [H7 [H8 H9]]]]]]]]]]] | [Hv [e Hc]]];
    rewrite Hc.
  - split; [split; [intros _; exact Hv | intros _; eauto]|].
    intros s Hs. injection Hs as <-.
    unfold ComSerial.GetWriteTimeout, ComSerial.GetReadTimeout.
    rewrite H8, H9, ms_roundtrip by exact Ht. tauto.
  - split; [split; [intros [s Hs]; discriminate | tauto]|].
    intros s Hs. discriminate.
Qed.

Lemma serial_constructor_validates_witness :
  (0 <= 1500 < 2 ^ 32)%Z /\
  ComSerial.GetParity (match ComSerial.construct "/dev/ttyUSB0" 9600 8 1 "E" "N" 1500
                       with inr s => s | inl _ => ComSerial.initial end) = "e"%char.
Proof.
  split; [lia|].
  destruct (serial_constructor_validates "/dev/ttyUSB0" 9600 8 1 "E" "N" 1500)
    as [[_ Hex] Hget]; [lia|].
  destruct Hex as [s Hs].
  - unfold serial_params_valid. repeat split; try discriminate; simpl; auto.
  - rewrite Hs. apply (Hget s Hs).
Defined.

(** ** Configuration of the socket *)

(** X12: the socket constructor succeeds exactly when the address is
    accepted, the port is at most 65535 and the timeout is not 0; the
    object it builds is closed, holds the parsed address, and its getters
    return the port and, for all three timeouts, [timeout]. *)
Theorem socket_constructor_validates (address : string) (port timeout : Z) :
  (0 <= timeout < 2 ^ 32)%Z ->
  ((exists s, ComSocket.construct address port timeout = inr s) <->
   (fst (ComSocket.SetAddress address ComSocket.initial) = true /\
    (port <= 65535)%Z /\ timeout <> 0%Z)) /\
  (forall s, ComSocket.construct address port timeout = inr s ->
     ComSocket.Opened s = false /\
     ComSocket.m_address s
       = ComSocket.m_address (snd (ComSocket.SetAddress address ComSocket.initial)) /\
     ComSocket.GetPort s = port /\ ComSocket.GetOpenTimeout s = timeout /\
     ComSocket.GetWriteTimeout s = timeout /\ ComSocket.GetReadTimeout s = timeout).
Proof.
  intros Ht.
  unfold ComSocket.construct.
  destruct (ComSocket.SetAddress address ComSocket.initial) as [ok s1] eqn:Ha.
  assert (Hs1 : ComSocket.m_socket_open s1 = false).
  { unfold ComSocket.SetAddress in Ha.
    destruct (String.eqb address ""); [injection Ha as <- <-; reflexivity|].
    destruct (Ip.from_string address); injection Ha as <- <-; reflexivity. }
  cbn [fst snd]. destruct ok; cbn beta iota zeta delta [negb];
    [| split; [split; [intros [s Hs]; discriminate | intros [H _]; discriminate]
              | intros s Hs; discriminate]].
  unfold ComSocket.SetPort, ComSocket.SetOpenTimeout, ComSocket.SetWriteTimeout,
    ComSocket.SetReadTimeout.
  destruct (Z.gtb_spec port 65535); cbn beta iota zeta delta [negb];
    [split; [split; [intros [s Hs]; discriminate | lia] | intros s Hs; discriminate]|].
  destruct (Z.eqb_spec timeout 0); cbn beta iota zeta delta [negb];
    [split; [split; [intros [s Hs]; discriminate | tauto] | intros s Hs; discriminate]|].
  split; [split; [intros _; tauto | intros _; eauto]|].
  intros s Hs. injection Hs as <-.
  unfold ComSocket.Opened, ComSocket.GetPort, ComSocket.GetOpenTimeout,
    ComSocket.GetWriteTimeout, ComSocket.GetReadTimeout.
  cbn [ComSocket.with_read_timeout ComSocket.with_write_timeout
       ComSocket.with_open_timeout ComSocket.with_port
       ComSocket.m_socket_open ComSocket.m_address ComSocket.m_port
       ComSocket.m_open_timeout ComSocket.m_write_timeout ComSocket.m_read_timeout].
  rewrite ms_roundtrip by exact Ht. repeat split; assumption.
Qed.

Lemma socket_constructor_validates_witness :
  (0 <= 2000 < 2 ^ 32)%Z /\
  (exists s, ComSocket.construct "192.168.0.10" 502 2000 = inr s).
Proof.
  split; [lia|].
  apply (socket_constructor_validates "192.168.0.10" 502 2000); [lia|].
  split; [vm_compute; reflexivity|]. split; [lia | discriminate].
Defined.

(** ** Server mode deadline *)

Lemma run_timer_first_state {R} (h : handlers R) (o : io_object) (lo : option N)
    (d : N) (r0 : R) (rest : list event) :
  timer_handler R h Success = [CancelObject o] ->
  (forall e n r, snd (io_handler R h e n r) = [CancelTimer]) ->
  run h (EvTimerExpire :: rest) (mk_loop R true (Some (mk_io_op o lo d)) [] r0 None)
  = mk_loop R false None [] (fst (io_handler R h OperationAborted d r0))
      (Some (OperationAborted, d)).
Proof.
  intros Ht Hc. rewrite run_wait by reflexivity.
  change (deliver R EvTimerExpire (mk_loop R true (Some (mk_io_op o lo d)) [] r0 None))
    with (mk_loop R false (Some (mk_io_op o lo d)) [TimerDone Success] r0 None).
  destruct rest; unfold run; fold (run (R := R));
    rewrite (drain_after_expiry R h o Ht Hc); reflexivity.
Qed.

(** X13: in server mode, when the open timeout elapses before a client
    connects, [Open] returns [false] and the socket stays closed. *)
Theorem socket_server_timeout_stays_closed (env : ComSocket.open_env)
    (rest : list event) (s : ComSocket.ComSocket) :
  Ip.is_unspecified (ComSocket.m_address s) = true ->
  is_error (ComSocket.acceptor_setup_ec env) = false ->
  is_error (ComSocket.acceptor_close_ec env) = false ->
  fst (fst (ComSocket.Open env (EvTimerExpire :: rest) s)) = false /\
  ComSocket.Opened (snd (fst (ComSocket.Open env (EvTimerExpire :: rest) s))) = false.
Proof.
  intros Hu Hs Hc.
  assert (Hrun : run (mk_handlers ComSocket.open_handler ComSocket.timeout_accept_handler)
                   (EvTimerExpire :: rest) (start (mk_io_op ObjAcceptor None 0%N) false)
                 = mk_loop bool false None [] true (Some (OperationAborted, 0%N))).
  { change (start (mk_io_op ObjAcceptor None 0%N) false)
      with (mk_loop bool true (Some (mk_io_op ObjAcceptor None 0%N)) [] false None).
    rewrite run_timer_first_state; reflexivity. }
  unfold ComSocket.Open.
  destruct (ComSocket.m_socket_open s); cbn beta iota;
    rewrite ?with_socket_open_address, Hu, Hs, Hc, Hrun;
    unfold ComSocket.open_finish, run_ec; cbn; split; reflexivity.
Qed.

Lemma socket_server_timeout_stays_closed_witness :
  let env := ComSocket.mk_open_env Success Success Success Success in
  fst (fst (ComSocket.Open env [EvTimerExpire] ComSocket.initial)) = false /\
  ComSocket.Opened (snd (fst (ComSocket.Open env [EvTimerExpire] ComSocket.initial)))
  = false.
Proof.
  intros env. apply socket_server_timeout_stays_closed; reflexivity.
Defined.

(** ** Scalar settings *)

(** X14: [SetPort], [SetDevice] and [SetBaudRate] refuse only a port
    above 65535, an empty device name and a baud rate of 0, and then leave
    the object as it was; [SetDataBits] refuses nothing; an accepted value
    is what the getter returns. *)
Theorem scalar_setters_roundtrip (t : ComSocket.ComSocket) (port : Z)
    (s : ComSerial.ComSerial) (device : string) (baud_rate data_bits : Z) :
  (fst (ComSocket.SetPort port t) = (port <=? 65535)%Z) /\
  (if fst (ComSocket.SetPort port t)
   then ComSocket.GetPort (snd (ComSocket.SetPort port t)) = port
   else snd (ComSocket.SetPort port t) = t) /\
  (fst (ComSerial.SetDevice device s) = negb (String.eqb device "")) /\
  (if fst (ComSerial.SetDevice device s)
   then ComSerial.GetDevice (snd (ComSerial.SetDevice device s)) = device
   else snd (ComSerial.SetDevice device s) = s) /\
  (fst (ComSerial.SetBaudRate baud_rate s) = negb (baud_rate =? 0)%Z) /\
  (if fst (ComSerial.SetBaudRate baud_rate s)
   then ComSerial.GetBaudRate (snd (ComSerial.SetBaudRate baud_rate s)) = baud_rate
   else snd (ComSerial.SetBaudRate baud_rate s) = s) /\
  (fst (ComSerial.SetDataBits data_bits s) = true) /\
  ComSerial.GetDataBits (snd (ComSerial.SetDataBits data_bits s)) = data_bits.
Proof.
  unfold ComSocket.SetPort, ComSerial.SetDevice, ComSerial.SetBaudRate,
    ComSerial.SetDataBits.
  rewrite Z.gtb_ltb.
  destruct (Z.ltb_spec 65535 port), (Z.leb_spec port 65535); try lia;
  destruct (String.eqb device ""), (baud_rate =? 0)%Z;
  repeat split; reflexivity.
Qed.

(** ** The open state and the configuration are independent *)

(** X15: no setter opens or closes the port or the socket, and [Open]
    and [Close] change nothing but whether it is open: the configuration
    survives them. *)
Theorem open_state_and_settings_independent (s : ComSerial.ComSerial)
    (t : ComSocket.ComSocket) (z : Z) (str : string) (c : ascii)
    (open_ec close_ec : error_code) (exclusive_ok options_ok : bool)
    (env : ComSocket.open_env) (evs : list event) :
  ComSerial.Opened (snd (ComSerial.SetWriteTimeout z s)) = ComSerial.Opened s /\
  ComSerial.Opened (snd (ComSerial.SetReadTimeout z s)) = ComSerial.Opened s /\
  ComSerial.Opened (snd (ComSerial.SetDevice str s)) = ComSerial.Opened s /\
  ComSerial.Opened (snd (ComSerial.SetBaudRate z s)) = ComSerial.Opened s /\
  ComSerial.Opened (snd (ComSerial.SetDataBits z s)) = ComSerial.Opened s /\
  ComSerial.Opened (snd (ComSerial.SetStopBits z s)) = ComSerial.Opened s /\
  ComSerial.Opened (snd (ComSerial.SetParity c s)) = ComSerial.Opened s /\
  ComSerial.Opened (snd (ComSerial.SetFlowControl c s)) = ComSerial.Opened s /\
  ComSocket.Opened (snd (ComSocket.SetWriteTimeout z t)) = ComSocket.Opened t /\
  ComSocket.Opened (snd (ComSocket.SetReadTimeout z t)) = ComSocket.Opened t /\
  ComSocket.Opened (snd (ComSocket.SetOpenTimeout z t)) = ComSocket.Opened t /\
  ComSocket.Opened (snd (ComSocket.SetAddress str t)) = ComSocket.Opened t /\
  ComSocket.Opened (snd (ComSocket.SetPort z t)) = ComSocket.Opened t /\
  (exists b, snd (ComSerial.Open open_ec exclusive_ok options_ok s)
             = ComSerial.with_port_open b s) /\
  (exists b, snd (ComSerial.Close close_ec s) = ComSerial.with_port_open b s) /\
  (exists b, snd (fst (ComSocket.Open env evs t)) = ComSocket.with_socket_open b t) /\
  (exists b, snd (ComSocket.Close close_ec t) = ComSocket.with_socket_open b t).
Proof.
  assert (Hser : forall s' : ComSerial.ComSerial,
             s' = ComSerial.with_port_open (ComSerial.m_port_open s') s').
  { intros []. reflexivity. }
  assert (Hsock : forall t' : ComSocket.ComSocket,
             t' = ComSocket.with_socket_open (ComSocket.m_socket_open t') t').
  { intros []. reflexivity. }
  assert (Hfin : forall ec r so u log,
             (exists b0, u = ComSocket.with_socket_open b0 t) ->
             exists b, snd (fst (ComSocket.open_finish ec r so env u log))
                       = ComSocket.with_socket_open b t).
  { intros ec r so u log [b0 ->]. unfold ComSocket.open_finish.
    destruct (is_error ec); [eexists; reflexivity|].
    destruct (is_error (if so then ComSocket.non_blocking_ec env else BadDescriptor));
      eexists; reflexivity. }
  repeat split.
  - unfold ComSerial.SetWriteTimeout. destruct (z =? 0)%Z; reflexivity.
  - unfold ComSerial.SetReadTimeout. destruct (z =? 0)%Z; reflexivity.
  - unfold ComSerial.SetDevice. destruct (String.eqb str ""); reflexivity.
  - unfold ComSerial.SetBaudRate. destruct (z =? 0)%Z; reflexivity.
  - unfold ComSerial.SetStopBits.
    destruct (z =? 1)%Z; [|destruct (z =? 2)%Z; [|destruct (z =? 3)%Z]]; reflexivity.
  - unfold ComSerial.SetParity.
    destruct (Ascii.eqb c "e" || Ascii.eqb c "E"); [reflexivity|].
    destruct (Ascii.eqb c "o" || Ascii.eqb c "O"); [reflexivity|].
    destruct (Ascii.eqb c "n" || Ascii.eqb c "N"); reflexivity.
  - unfold ComSerial.SetFlowControl.
    destruct (Ascii.eqb c "h" || Ascii.eqb c "H"); [reflexivity|].
    destruct (Ascii.eqb c "s" || Ascii.eqb c "S"); [reflexivity|].
    destruct (Ascii.eqb c "n" || Ascii.eqb c "N"); reflexivity.
  - unfold ComSocket.SetWriteTimeout. destruct (z =? 0)%Z; reflexivity.
  - unfold ComSocket.SetReadTimeout. destruct (z =? 0)%Z; reflexivity.
  - unfold ComSocket.SetOpenTimeout. destruct (z =? 0)%Z; reflexivity.
  - unfold ComSocket.SetAddress. destruct (String.eqb str ""); [reflexivity|].
    destruct (Ip.from_string str); reflexivity.
  - unfold ComSocket.SetPort. destruct (z >? 65535)%Z; reflexivity.
  - unfold ComSerial.Open.
    destruct (ComSerial.m_port_open s) eqn:E;
      destruct (is_error open_ec), exclusive_ok, options_ok; simpl;
      try (eexists; reflexivity); exists (ComSerial.m_port_open s); apply Hser.
  - unfold ComSerial.Close.
    destruct (ComSerial.m_port_open s) eqn:E; [destruct (is_error close_ec)|];
      simpl; try (eexists; reflexivity); exists (ComSerial.m_port_open s); apply Hser.
  - unfold ComSocket.Open.
    destruct (ComSocket.m_socket_open t) eqn:E; cbn beta iota;
    [assert (Hu : exists b0, ComSocket.with_socket_open false t
                             = ComSocket.with_socket_open b0 t)
       by (eexists; reflexivity)
    |assert (Hu : exists b0, t = ComSocket.with_socket_open b0 t)
       by (exists (ComSocket.m_socket_open t); apply Hsock)];
    (destruct (Ip.is_unspecified _);
     [destruct (is_error (ComSocket.acceptor_setup_ec env));
        [exact Hu | apply Hfin; exact Hu]
     |destruct (is_error (ComSocket.socket_open_ec env)); apply Hfin; exact Hu]).
  - unfold ComSocket.Close.
    destruct (ComSocket.m_socket_open t) eqn:E; [destruct (is_error close_ec)|];
      simpl; try (eexists; reflexivity); exists (ComSocket.m_socket_open t); apply Hsock.
Qed.

(** ** Non-blocking I/O *)

(** X16: the non-blocking calls of both transports return [-1], [0] or
    a count of at most [len] bytes, when the driver reports a byte count
    that is not negative and transfers at most [len] bytes (below 2^31);
    on the socket, [would_block] gives [0]. *)
Theorem nonblocking_io_range (fionread tiocoutq : Z * Z) (rd : error_code * N)
    (len : N) (s : ComSerial.ComSerial) (t : ComSocket.ComSocket) :
  (0 <= snd fionread)%Z -> (0 <= snd tiocoutq)%Z ->
  (snd rd <= len)%N -> (len < 2 ^ 31)%N ->
  (-1 <= fst (ComSerial.ReadSome fionread rd len s) <= Z.of_N len)%Z /\
  (-1 <= fst (ComSerial.WriteSome tiocoutq rd len s) <= Z.of_N len)%Z /\
  (-1 <= ComSocket.ReadSome rd len t <= Z.of_N len)%Z /\
  (-1 <= ComSocket.WriteSome rd len t <= Z.of_N len)%Z /\
  (fst rd = WouldBlock ->
     ComSocket.ReadSome rd len t = 0%Z /\ ComSocket.WriteSome rd len t = 0%Z).
Proof.
  intros Hf Ht Hn Hlen.
  destruct rd as [ec n]. cbn [snd fst] in Hn |- *.
  pose proof (to_int_le n len Hn Hlen) as Hr.
  unfold ComSerial.ReadSome, ComSerial.WriteSome, ComSocket.ReadSome,
    ComSocket.WriteSome, ComSerial.available_for_read, ComSerial.pending_for_write.
  destruct fionread as [rc1 v1], tiocoutq as [rc2 v2]. cbn [fst snd] in *.
  repeat split; try intros ->; destruct ec; cbn [is_error] in *;
    repeat match goal with
           | |- context [if ?c then _ else _] => destruct c eqn:?
           end;
    cbn [fst] in *;
    repeat match goal with
           | H : (_ <? _)%Z = true |- _ => apply Z.ltb_lt in H
           | H : (_ <? _)%Z = false |- _ => apply Z.ltb_ge in H
           | H : (_ <=? _)%Z = true |- _ => apply Z.leb_le in H
           | H : (_ <=? _)%Z = false |- _ => apply Z.leb_gt in H
           | H : (_ =? _)%Z = true |- _ => apply Z.eqb_eq in H
           | H : (_ =? _)%Z = false |- _ => apply Z.eqb_neq in H
           | H : (_ >? _)%Z = true |- _ => rewrite Z.gtb_ltb in H; apply Z.ltb_lt in H
           | H : (_ >? _)%Z = false |- _ => rewrite Z.gtb_ltb in H; apply Z.ltb_ge in H
           | H : negb _ = true |- _ => apply negb_true_iff in H
           | H : negb _ = false |- _ => apply negb_false_iff in H
           end;
    try lia; try reflexivity; try discriminate.
Qed.

Lemma nonblocking_io_range_witness :
  (-1 <= fst (ComSerial.ReadSome (0, 12)%Z (Success, 5%N) 16 ComSerial.initial) <= 16)%Z.
Proof.
  apply (nonblocking_io_range (0, 12)%Z (0, 0)%Z (Success, 5%N) 16 ComSerial.initial
           ComSocket.initial); simpl; lia.
Defined.

(** ** A refused address *)

(** X17: a non-empty address that does not parse is refused, but not
    harmlessly: [SetAddress] has already stored the unspecified address,
    so [GetAddress] then returns the empty string and the next [Open]
    takes the server branch (bind, listen, accept) even if the object was
    a client before. *)
Theorem SetAddress_refused_switches_to_server (address : string)
    (s : ComSocket.ComSocket) (address_to_string : Ip.address -> string) :
  address <> ""%string -> Ip.from_string address = None ->
  fst (ComSocket.SetAddress address s) = false /\
  ComSocket.GetAddress address_to_string (snd (ComSocket.SetAddress address s)) = ""%string /\
  opens_as_server (snd (ComSocket.SetAddress address s)).
Proof.
  intros Hne Hp. rewrite (SetAddress_unparsed address s Hne Hp). cbn [fst snd].
  split; [reflexivity|]. split; [reflexivity|].
  apply Open_mode_server. reflexivity.
Qed.

Lemma SetAddress_refused_switches_to_server_witness :
  let s := ComSocket.with_address (Ip.V4 [10; 0; 0; 2]%Z) ComSocket.initial in
  fst (ComSocket.SetAddress "10.0.0.256" s) = false /\
  opens_as_server (snd (ComSocket.SetAddress "10.0.0.256" s)).
Proof.
  intros s.
  destruct (SetAddress_refused_switches_to_server "10.0.0.256" s (fun _ => ""%string))
    as [H1 [_ H3]]; [discriminate | vm_compute; reflexivity |].
  split; assumption.
Defined.
